(** * Hotel scraper API: request handlers over a browser-automation oracle

    The repository is a set of Express handlers (src/server.js and the two
    larger variants of the same server) that drive a headless browser and
    shape what they extract as JSON.  Each handler is embedded below as a
    computation in a small state-and-exception monad.  The browser, the
    remote page and the HTTP client are collaborators the code does not
    control: they are a [World] that answers every call, so a statement
    quantified over worlds holds whatever the travel site serves.

    Conventions.  The request body is the JSON object [express.json()]
    parsed, a finite map from property names to values.  A string is held
    as its bytes in UTF-8, generalised so that a surrogate without its
    partner, which a JavaScript string can hold, is the three bytes of its
    code point (WTF-8).  [toLowerCase] acts on the ASCII letters, which is
    all the source asks of it (it looks for the word taxes).  The
    hotel-info handler of src/server.js and the handlers of the two larger
    servers are the same text; each is embedded once. *)

From stdpp Require Import gmap strings list pretty.
From Stdlib Require Import ZArith Lia Ascii String.

Abbreviation length := List.length.

Set Warnings "-register-all".
Local Open Scope string_scope.
Local Open Scope Z_scope.
Local Open Scope list_scope.

(** ** JavaScript values *)

(** The values that cross the handlers: what [express.json()] parses, what
    [page.evaluate] hands back and what [res.json] serialises.  The numbers
    are the integers (those a double holds exactly are the ones JavaScript
    has); a fraction has no value here. *)
Inductive value : Type :=
| VUndefined
| VNull
| VBool (b : bool)
| VNum (n : Z)
| VStr (s : string)
| VArr (items : list value)
| VObj (fields : list (string * value)).

(** [!!v] of JavaScript. *)
Definition truthy (v : value) : bool :=
  match v with
  | VUndefined | VNull => false
  | VBool b => b
  | VNum n => negb (n =? 0)
  | VStr s => negb (String.eqb s "")
  | VArr _ | VObj _ => true
  end.

(** [a || b] on values (both operands are pure wherever the code uses it). *)
Definition js_or (a b : value) : value := if truthy a then a else b.


Definition is_undefined (v : value) : bool :=
  match v with VUndefined => true | _ => false end.

Definition is_null (v : value) : bool :=
  match v with VNull => true | _ => false end.

(** Property read [o.k]: [undefined] when [o] has no such own property. *)
Fixpoint assoc (k : string) (fs : list (string * value)) : option value :=
  match fs with
  | [] => None
  | (k', v) :: rest => if String.eqb k k' then Some v else assoc k rest
  end.

Definition get (k : string) (o : value) : value :=
  match o with
  | VObj fs => default VUndefined (assoc k fs)
  | _ => VUndefined
  end.

(** [k in o] for a plain object. *)
Definition has_field (k : string) (o : value) : bool :=
  match o with
  | VObj fs => bool_decide (is_Some (assoc k fs))
  | _ => false
  end.

(** What [JSON.stringify] keeps of a value, as [res.json] sends it: an object
    property whose value is [undefined] is left out, an [undefined] array
    item becomes [null]. *)
Fixpoint to_json (v : value) : value :=
  match v with
  | VArr items =>
      VArr (map (fun x => match x with VUndefined => VNull | _ => to_json x end) items)
  | VObj fields =>
      VObj ((fix keep (fs : list (string * value)) : list (string * value) :=
               match fs with
               | [] => []
               | (k, x) :: rest =>
                   match x with
                   | VUndefined => keep rest
                   | _ => (k, to_json x) :: keep rest
                   end
               end) fields)
  | _ => v
  end.

(** ** Exceptions *)

(** A thrown [Error]: what the handlers read of it. *)
Record Error := mkError { err_message : string; err_stack : string }.

(** A result, or the error thrown instead. *)
Inductive Res (A : Type) : Type :=
| Ok (a : A)
| Throw (e : Error).
Arguments Ok {A} a.
Arguments Throw {A} e.

Definition type_error (what : string) : Error :=
  {| err_message := what; err_stack := "TypeError: " +:+ what |}.

(** The [TypeError] of [ToString] and [ToPrimitive] on an object that has
    no usable [toString], and the [URIError] of [encodeURIComponent]. *)
Definition conversion_error : Error :=
  type_error "Cannot convert object to primitive value".

Definition uri_malformed : Error :=
  {| err_message := "URI malformed"; err_stack := "URIError: URI malformed" |}.

(** ** Strings *)

Definition dq : string := String (ascii_of_nat 34) EmptyString.
Definition nl : string := String (ascii_of_nat 10) EmptyString.

(** [s.startsWith(p)]. *)
Definition startsWith (p s : string) : bool := String.prefix p s.

(** [s.includes(p)]. *)
Fixpoint includes (p s : string) : bool :=
  String.prefix p s ||
  match s with
  | EmptyString => false
  | String _ rest => includes p rest
  end.

(** [s.toLowerCase()], on the ASCII letters. *)
Definition lower_ascii (c : ascii) : ascii :=
  let n := nat_of_ascii c in
  if ((65 <=? n) && (n <=? 90))%nat then ascii_of_nat (n + 32) else c.

Fixpoint toLowerCase (s : string) : string :=
  match s with
  | EmptyString => EmptyString
  | String c rest => String (lower_ascii c) (toLowerCase rest)
  end.

(** The string of the given bytes. *)
Definition bytes (l : list nat) : string :=
  string_of_list_ascii (map ascii_of_nat l).

(** The white space and the line terminators of the language, as [trim]
    strips them: tab, line feed, vertical tab, form feed, carriage return,
    space, U+00A0, U+1680, U+2000 to U+200A, U+2028, U+2029, U+202F, U+205F,
    U+3000 and U+FEFF, each in UTF-8. *)
Definition white_space : list string :=
  bytes <$>
    (((fun n => [n]) <$> [9; 10; 11; 12; 13; 32]) ++
     [[194; 160]; [225; 154; 128]] ++
     ((fun n => [226; 128; n]) <$> seq 128 11) ++
     [[226; 128; 168]; [226; 128; 169]; [226; 128; 175];
      [226; 129; 159]; [227; 128; 128]; [239; 187; 191]])%nat.

(** [s] without its prefix [p], when it has that prefix. *)
Fixpoint after_prefix (p s : string) : option string :=
  match p, s with
  | EmptyString, _ => Some s
  | String a p', String b s' => if Ascii.eqb a b then after_prefix p' s' else None
  | String _ _, EmptyString => None
  end.

(** Strip, from the front, as many of the sequences [seqs] as there are;
    [fuel] bounds their number (the length of the string is enough). *)
Fixpoint strip (seqs : list string) (fuel : nat) (s : string) : string :=
  match fuel with
  | O => s
  | S fuel' =>
      match head (omap (fun p => after_prefix p s) seqs) with
      | Some rest => strip seqs fuel' rest
      | None => s
      end
  end.

(** [s.trim()]. *)
Definition trimStart (s : string) : string :=
  strip white_space (String.length s) s.

Definition trimEnd (s : string) : string :=
  String.rev (strip (String.rev <$> white_space) (String.length s) (String.rev s)).

Definition trim (s : string) : string := trimEnd (trimStart s).

(** [s.replace(/[()]/g, '')]. *)
Fixpoint strip_parens (s : string) : string :=
  match s with
  | EmptyString => EmptyString
  | String c rest =>
      if (Ascii.eqb c "(" || Ascii.eqb c ")")%bool then strip_parens rest
      else String c (strip_parens rest)
  end.

(** [parts.join(sep)]. *)
Fixpoint join (sep : string) (parts : list string) : string :=
  match parts with
  | [] => ""
  | [p] => p
  | p :: rest => p +:+ sep +:+ join sep rest
  end.

(** The percent-encoding of [encodeURIComponent]: the unreserved characters
    stay, every other byte of the string in UTF-8 becomes [%XX]. *)
Definition unreserved (c : ascii) : bool :=
  let n := nat_of_ascii c in
  (((48 <=? n) && (n <=? 57)) || ((65 <=? n) && (n <=? 90)) ||
   ((97 <=? n) && (n <=? 122)) ||
   existsb (Nat.eqb n) [45; 95; 46; 33; 126; 42; 39; 40; 41])%nat.

Definition hex_digit (n : nat) : ascii :=
  if (n <? 10)%nat then ascii_of_nat (48 + n) else ascii_of_nat (55 + n).

Fixpoint escape (s : string) : string :=
  match s with
  | EmptyString => EmptyString
  | String c rest =>
      if unreserved c then String c (escape rest)
      else
        let n := nat_of_ascii c in
        String "%" (String (hex_digit (n / 16)) (String (hex_digit (n mod 16))
          (escape rest)))
  end.

(** A surrogate without its partner: the bytes [ED A0..BF xx] of a code
    point from U+D800 to U+DFFF (a pair is the four bytes of its code point
    and has no such bytes). *)
Fixpoint has_lone_surrogate (s : string) : bool :=
  match s with
  | String a (String b _ as rest) =>
      ((nat_of_ascii a =? 237) && (160 <=? nat_of_ascii b) && (nat_of_ascii b <=? 191))%nat
      || has_lone_surrogate rest
  | _ => false
  end.

(** [encodeURIComponent(s)] for a string [s]: a [URIError] on a lone
    surrogate, the percent-encoding otherwise. *)
Definition encodeURIComponent (s : string) : Res string :=
  if has_lone_surrogate s then Throw uri_malformed else Ok (escape s).

(** The code points of a string, as [for (const char of s)] yields them:
    the lead byte tells how many bytes the next one takes. *)
Definition sequence_length (lead : ascii) : nat :=
  let n := nat_of_ascii lead in
  if (n <? 192)%nat then 1%nat
  else if (n <? 224)%nat then 2%nat
  else if (n <? 240)%nat then 3%nat
  else if (n <? 248)%nat then 4%nat
  else 1%nat.

Fixpoint code_points_from (fuel : nat) (l : list ascii) : list string :=
  match fuel, l with
  | S fuel', lead :: _ =>
      let k := sequence_length lead in
      string_of_list_ascii (take k l) :: code_points_from fuel' (drop k l)
  | _, _ => []
  end.

Definition code_points (s : string) : list string :=
  code_points_from (String.length s) (list_ascii_of_string s).

(** [ToString] of a number that is an integer.  Below 10^21 it is the
    decimal digits.  From there on it is the shortest digit string that
    reads back as the same double (the closest one when several do),
    written [d.ddde+n]: [rounds_to n v] says that the decimal value [v]
    reads back as the double [n], whose neighbours are one unit of its last
    binary place away (half of one below a power of two), a tie going to the
    even mantissa. *)
Definition rounds_to (n v : Z) : bool :=
  let e := Z.log2 n - 52 in
  let m := Z.shiftr n e in
  let up := 2 ^ (e - 1) in
  let down := if m =? 2 ^ 52 then 2 ^ (e - 2) else 2 ^ (e - 1) in
  if v =? n then true
  else if n <? v then (v - n <? up) || ((v - n =? up) && Z.even m)
  else (n - v <? down) || ((n - v =? down) && Z.even m).

(** The value of the shortest such digit string that ends at the decimal
    place [p] or lower. *)
Fixpoint shortest_from (n : Z) (p : nat) : Z :=
  let t := 10 ^ Z.of_nat p in
  let v0 := n / t * t in
  let v1 := v0 + t in
  let found :=
    match rounds_to n v0, rounds_to n v1 with
    | true, true =>
        Some (if n - v0 <? v1 - n then v0
              else if v1 - n <? n - v0 then v1
              else if Z.even (n / t) then v0 else v1)
    | true, false => Some v0
    | false, true => Some v1
    | false, false => None
    end in
  match found, p with
  | Some v, _ => v
  | None, O => n
  | None, S p' => shortest_from n p'
  end.

Fixpoint without_trailing_zeros (s : string) : string :=
  match s with
  | EmptyString => EmptyString
  | String c rest =>
      match without_trailing_zeros rest with
      | EmptyString => if Ascii.eqb c "0" then EmptyString else String c EmptyString
      | t => String c t
      end
  end.

Definition exponential (n : Z) : string :=
  let v := shortest_from n (String.length (pretty n) - 1) in
  let exponent := pretty (Z.of_nat (String.length (pretty v) - 1)) in
  match without_trailing_zeros (pretty v) with
  | EmptyString => EmptyString
  | String d EmptyString => String d ("e+" +:+ exponent)
  | String d more => String d ("." +:+ more +:+ "e+" +:+ exponent)
  end.

Definition number_to_string (n : Z) : string :=
  let magnitude := Z.abs n in
  let digits := if magnitude <? 10 ^ 21 then pretty magnitude else exponential magnitude in
  if n <? 0 then "-" +:+ digits else digits.

(** [ToString(v)], as a template literal and [encodeURIComponent] convert a
    value.  An object parsed from JSON has no function among its own
    properties: with an own [toString] (which hides the inherited one, and
    after which the inherited [valueOf] gives back the object) the
    conversion throws a [TypeError]; without one it is [[object Object]].
    An array is its items joined by commas, [null] and [undefined] as the
    empty string; the first item that throws makes the whole throw. *)
Fixpoint to_string (v : value) : Res string :=
  match v with
  | VUndefined => Ok "undefined"
  | VNull => Ok "null"
  | VBool true => Ok "true"
  | VBool false => Ok "false"
  | VNum n => Ok (number_to_string n)
  | VStr s => Ok s
  | VArr items =>
      match (fix each (l : list value) : Res (list string) :=
               match l with
               | [] => Ok []
               | x :: rest =>
                   match (match x with
                          | VUndefined | VNull => Ok ""
                          | _ => to_string x
                          end) with
                   | Throw e => Throw e
                   | Ok text =>
                       match each rest with
                       | Throw e => Throw e
                       | Ok texts => Ok (text :: texts)
                       end
                   end
               end) items with
      | Throw e => Throw e
      | Ok texts => Ok (join "," texts)
      end
  | VObj fields =>
      if bool_decide (is_Some (assoc "toString" fields)) then Throw conversion_error
      else Ok "[object Object]"
  end.

(** A template literal: its fixed texts and the values it interpolates,
    converted from left to right. *)
Inductive Piece :=
| Text (s : string)
| Hole (v : value).

Fixpoint template (pieces : list Piece) : Res string :=
  match pieces with
  | [] => Ok ""
  | Text s :: rest =>
      match template rest with
      | Throw e => Throw e
      | Ok more => Ok (s +:+ more)
      end
  | Hole v :: rest =>
      match to_string v with
      | Throw e => Throw e
      | Ok text =>
          match template rest with
          | Throw e => Throw e
          | Ok more => Ok (text +:+ more)
          end
      end
  end.

(** ** The DOM, as the extraction scripts query it *)

(** The interface of an element the scripts rely on.  [querySelector] is not
    a primitive: by the DOM standard it is the first match of
    [querySelectorAll], in document order. *)
Class DOM := {
  Element : Type;
  querySelectorAll : string -> Element -> list Element;
  textContent : Element -> string;
  getAttribute : string -> Element -> option string;
  href : Element -> string;
  children : Element -> list Element;
  closest : string -> Element -> option Element
}.

Definition querySelector `{DOM} (sel : string) (e : Element) : option Element :=
  head (querySelectorAll sel e).

(** A DOM with canned answers: every element carries what each query on it
    returns.  Used to write concrete pages. *)
Inductive Node : Type :=
| mkNode (text : string)
         (attrs : list (string * string))
         (link : string)
         (kids : list Node)
         (matches : list (string * list Node))
         (ancestors : list (string * Node)).

Fixpoint lookup_str {A} (k : string) (l : list (string * A)) : option A :=
  match l with
  | [] => None
  | (k', a) :: rest => if String.eqb k k' then Some a else lookup_str k rest
  end.

#[export] Instance NodeDOM : DOM := {|
  Element := Node;
  querySelectorAll := fun sel '(mkNode _ _ _ _ ms _) => default [] (lookup_str sel ms);
  textContent := fun '(mkNode t _ _ _ _ _) => t;
  getAttribute := fun a '(mkNode _ at_ _ _ _ _) => lookup_str a at_;
  href := fun '(mkNode _ _ l _ _ _) => l;
  children := fun '(mkNode _ _ _ ks _ _) => ks;
  closest := fun sel '(mkNode _ _ _ _ _ an) => lookup_str sel an
|}.

(** Optional chaining on an element that may be missing:
    [el?.textContent], [el?.textContent?.trim()], [el?.getAttribute(a)],
    [el?.href].  The text of an element is always a string, so the second
    [?.] of the source never short-circuits. *)
Definition opt_text `{DOM} (e : option Element) : value :=
  match e with Some el => VStr (textContent el) | None => VUndefined end.

Definition opt_trimmed `{DOM} (e : option Element) : value :=
  match e with Some el => VStr (trim (textContent el)) | None => VUndefined end.

Definition attr `{DOM} (a : string) (el : Element) : value :=
  match getAttribute a el with Some s => VStr s | None => VNull end.

Definition opt_attr `{DOM} (a : string) (e : option Element) : value :=
  match e with Some el => attr a el | None => VUndefined end.

Definition opt_href `{DOM} (e : option Element) : value :=
  match e with Some el => VStr (href el) | None => VUndefined end.

(** ** Selectors of the source *)

Definition sel_about_tab : string := "div[aria-label=" +:+ dq +:+ "About" +:+ dq +:+ "]".
Definition sel_entity_link : string :=
  "a[data-href^=" +:+ dq +:+ "/entity/C" +:+ dq +:+ "][href^=" +:+ dq +:+ "/travel/search?" +:+ dq +:+ "]".
Definition sel_entity_ch : string := "a[data-href^=" +:+ dq +:+ "/entity/Ch" +:+ dq +:+ "]".
Definition sel_about_section : string := "section.mEKuwe".
Definition sel_photos_tab : string :=
  "[aria-label=" +:+ dq +:+ "Photos" +:+ dq +:+ "][id=" +:+ dq +:+ "photos" +:+ dq +:+ "]".
Definition sel_feature : string := "[data-hotel-feature-id]".
Definition sel_photo_img : string := "img[alt^=" +:+ dq +:+ "Photo " +:+ dq +:+ "]".
Definition sel_prices_tab : string :=
  "[aria-label=" +:+ dq +:+ "Prices" +:+ dq +:+ "][id=" +:+ dq +:+ "prices" +:+ dq +:+ "]".
Definition sel_aclk : string := "a[href^=" +:+ dq +:+ "/aclk?" +:+ dq +:+ "]".
Definition sel_search_box : string := "textarea[name=" +:+ dq +:+ "q" +:+ dq +:+ "]".
Definition sel_guests : string := "div[jsname=" +:+ dq +:+ "FtsEs" +:+ dq +:+ "]".
Definition sel_guest_menu : string :=
  "ul[jsname=" +:+ dq +:+ "xl07Ob" +:+ dq +:+ "][aria-live=" +:+ dq +:+ "polite" +:+ dq +:+ "]".
Definition sel_guest_option : string := "li[role=" +:+ dq +:+ "menuitemradio" +:+ dq +:+ "]".
Definition sel_suggestions : string := "div[class*=" +:+ dq +:+ "uaTTDe" +:+ dq +:+ "]".

(** ** Extraction scripts (the functions passed to [page.evaluate]) *)

Section Extraction.
Context `{DOM}.

(** hotel-info: [null] without the About section, else the six fields. *)
Definition extract_hotel_info (document : Element) : value :=
  match querySelector sel_about_section document with
  | None => VNull
  | Some aboutSection =>
      let description :=
        join (nl +:+ nl)
          (List.filter (fun t => truthy (VStr t))
             (map textContent (querySelectorAll ".GtAk2e" aboutSection))) in
      let checkInTime :=
        js_or (opt_text (querySelector ".b9tWsd:nth-child(1) .IIl29e" aboutSection)) (VStr "") in
      let checkOutTime :=
        js_or (opt_text (querySelector ".b9tWsd:nth-child(2) .IIl29e" aboutSection)) (VStr "") in
      let address :=
        js_or (opt_text (querySelector
                 (".XGa8fd[aria-label*=" +:+ dq +:+ "hotel address" +:+ dq +:+ "]") aboutSection))
              (VStr "") in
      let phone :=
        js_or (opt_text (querySelector
                 (".XGa8fd[aria-label*=" +:+ dq +:+ "call this hotel" +:+ dq +:+ "]") aboutSection))
              (VStr "") in
      let websiteLink :=
        querySelector ("a[aria-label=" +:+ dq +:+ "Website" +:+ dq +:+ "]") aboutSection in
      let websiteUrl := js_or (opt_href websiteLink) (VStr "") in
      VObj [("description", VStr description);
            ("checkInTime", checkInTime);
            ("checkOutTime", checkOutTime);
            ("address", address);
            ("phone", phone);
            ("websiteUrl", websiteUrl)]
  end.

(** hotel-images: one record per photo, the first ten. *)
Definition image_record (img : Element) : value :=
  let url := js_or (attr "src" img) (VStr "") in
  VObj [("url", url);
        ("alt", js_or (attr "alt" img) (VStr ""));
        ("caption", js_or (opt_text (closest sel_feature img)) (VStr ""))].

Definition extract_images (document : Element) : list value :=
  take 10 (map image_record (querySelectorAll sel_photo_img document)).

(** hotel-prices.  [find] over the trimmed span texts: the first one the
    predicate accepts, or [undefined]. *)
Definition find_text (p : string -> bool) (spans : list Element) : value :=
  match List.find (fun t => negb (String.eqb t "") && p t)
          (map (fun s => trim (textContent s)) spans) with
  | Some t => VStr t
  | None => VUndefined
  end.

(** The record of one room link.  The span loop of the source that fills
    the provider's local [support], [memberDeals] and [features] is left
    out: it assigns neither [cancellationPolicy] nor [roomFeatures] and
    none of what it fills is returned.  No step of the [try] around [type]
    can throw, every access being guarded by [?.]. *)
Definition room_data (room : Element) : value :=
  let type :=
    js_or (opt_trimmed (head (children room) ≫= fun c0 =>
                        head (children c0) ≫= fun c00 =>
                        querySelector "div" c00))
      (js_or (opt_trimmed (querySelector "div > div > div" room))
             (VStr "Unknown Room Type")) in
  let allSpans := querySelectorAll "span" room in
  let basePrice :=
    js_or (find_text (fun t => includes "$" t && negb (includes "taxes" (toLowerCase t)))
             allSpans) (VStr "") in
  let totalPrice :=
    js_or (find_text (fun t => includes "$" t && includes "taxes" (toLowerCase t))
             allSpans) basePrice in
  let roomFeatures : list value := [] in
  let cancellationPolicy := VUndefined in
  let relativeUrl := default "" (getAttribute "href" room) in
  let url :=
    if startsWith "http" relativeUrl then relativeUrl
    else "https://www.google.com/travel" +:+ relativeUrl in
  VObj [("type", type);
        ("basePrice", basePrice);
        ("totalPrice", totalPrice);
        ("url", VStr url);
        ("cancellationPolicy", cancellationPolicy);
        ("features", if (0 <? List.length roomFeatures)%nat then VArr roomFeatures
                     else VUndefined)].

(** The provider section is the first [div] holding a link whose [href]
    starts with [/aclk?]; without one the listing is empty. *)
Definition provider_section (document : Element) : option Element :=
  List.find (fun div => bool_decide (is_Some (querySelector sel_aclk div)))
    (querySelectorAll "div" document).

Definition extract_prices (document : Element) : list value :=
  match provider_section document with
  | None => []
  | Some providerSection =>
      let rooms := map room_data (querySelectorAll sel_aclk providerSection) in
      [VObj [("rooms", VArr rooms)]]
  end.

(** hotel-suggestions: one record per result card, the first ten. *)
Definition hotel_data (element : Element) : value :=
  let name := js_or (opt_text (querySelector "h2.BgYkof" element)) (VStr "") in
  let price := js_or (opt_text (querySelector ".W9vOvb.nDkDDb" element)) (VStr "") in
  let rating := js_or (opt_text (querySelector ".KFi5wf" element)) (VStr "") in
  let reviews :=
    js_or (match querySelector ".jdzyld" element with
           | Some el => VStr (strip_parens (textContent el))
           | None => VUndefined
           end) (VStr "") in
  let deal := js_or (opt_text (querySelector ".PymDFe.YAMDU" element)) (VStr "") in
  let url := js_or (opt_attr "href" (querySelector "a.PVOOXe" element)) (VStr "") in
  let image := js_or (opt_attr "src" (querySelector "img.x7VXS" element)) (VStr "") in
  let location := js_or (opt_text (querySelector ".uTUoTb.pWBec" element)) (VStr "") in
  let amenities :=
    map (fun el => js_or (VStr (textContent el)) (VStr ""))
      (querySelectorAll ".LtjZ2d.sSHqwe.ogfYpf.QYEgn" element) in
  let description := js_or (opt_text (querySelector ".lXJaOd" element)) (VStr "") in
  VObj [("name", name); ("price", price); ("rating", rating);
        ("reviews", reviews); ("deal", deal); ("url", url);
        ("image", image); ("location", location);
        ("amenities", VArr amenities); ("description", description)].

Definition extract_suggestions (document : Element) : list value :=
  let hotelElements := querySelectorAll sel_suggestions document in
  let limitedElements := take 10 hotelElements in
  map hotel_data limitedElements.

End Extraction.

(** ** The browser, the network and the process environment *)

Inductive Engine := Puppeteer | Playwright.

(** The functions handed to [page.evaluate], by what they do. *)
Inductive Script :=
| CheckAboutTab | ExtractHotelInfo | CheckEntityLink | ClickEntityLink
| CheckPhotosTab | ExtractImages | ExtractPrices | ExtractSuggestions.

(** Every awaited call on the automation library.  [HandleClick] is the
    click on the one handle a [page.$] or a [waitForSelector] gave,
    [HandleType] the typing into the search box, [OptionTextContent i] and
    [OptionClick i] the calls on the [i]-th handle of [guestOptions]. *)
Inductive Call :=
| Launch (engine : Engine)
| NewContext
| SetExtraHTTPHeaders
| NewPage
| SetViewport
| AddInitScript
| Route
| Goto (url : string)
| Evaluate (f : Script)
| Click (sel : string)
| WaitForSelector (sel : string) (timeout : option Z)
| WaitForNavigation (timeout : option Z)
| WaitForTimeout (ms : Z)
| Query (sel : string)
| QueryAll (sel : string)
| HandleClick
| HandleType (char : string)
| OptionTextContent (i : nat)
| OptionClick (i : nat)
| MouseMove
| KeyboardPress (key : string)
| Close.

(** What the log keeps: each awaited call on the automation library with
    the error it threw, if any, and each plain [setTimeout] pause (its
    length when the source fixes one).  The [HEAD] requests of the image
    validation are no calls on the browser and the log does not keep them:
    hotel-images sends them once [browser.close()] has returned, and the
    world's [head_request] answers them. *)
Inductive Event :=
| EvCall (c : Call) (failure : option Error)
| EvSleep (ms : option Z).

(** The answer to a [HEAD] request: [fetch] rejects, or resolves to a
    response with its [ok] flag and its [content-type] header. *)
Inductive FetchOutcome :=
| FetchError (e : Error)
| FetchResponse (ok : bool) (content_type : option string).

(** Everything outside the handler.  [fails n c] is the error the [n]-th
    awaited call throws when it is [c]; [document n] is the page as that
    call sees it; [head_request i url] answers the request for the [i]-th
    image candidate; [completion_order] is the order in which the concurrent
    validations finish; [formatDate] stands for [Date] and
    [toLocaleString]. *)
Record World `{DOM} := mkWorld {
  fails : nat -> Call -> option Error;
  document : nat -> Element;
  head_request : nat -> value -> FetchOutcome;
  completion_order : list nat;
  node_env : option string;
  formatDate : value -> string
}.

(** The handler's own state: how many calls it has awaited, whether it has
    launched a browser, whether that browser is still open, and the log,
    newest event first. *)
Record State := mkState {
  calls : nat;
  launched : bool;
  open : bool;
  log : list Event
}.

Definition initial : State :=
  {| calls := 0; launched := false; open := false; log := [] |}.

Definition M (A : Type) : Type := State -> Res A * State.

Definition ret {A} (a : A) : M A := fun s => (Ok a, s).

Definition bind {A B} (m : M A) (f : A -> M B) : M B :=
  fun s => match m s with
           | (Ok a, s') => f a s'
           | (Throw e, s') => (Throw e, s')
           end.

Definition try_catch {A} (m : M A) (handler : Error -> M A) : M A :=
  fun s => match m s with
           | (Ok a, s') => (Ok a, s')
           | (Throw e, s') => handler e s'
           end.

Definition lift {A} (r : Res A) : M A := fun s => (r, s).

(** The handlers are written with stdpp's monad notation:
    [x ← m; k] and [m;; k]. *)
#[export] Instance M_ret : MRet M := @ret.
#[export] Instance M_bind : MBind M := fun A B f m => bind m f.

(** The state after a call: a successful launch opens the browser, a
    successful close closes it. *)
Definition step (c : Call) (r : option Error) (s : State) : State :=
  {| calls := S (calls s);
     launched := match c, r with Launch _, None => true | _, _ => launched s end;
     open := match c, r with
             | Launch _, None => true
             | Close, None => false
             | _, _ => open s
             end;
     log := EvCall c r :: log s |}.

Definition pause (ms : option Z) (s : State) : State :=
  {| calls := calls s; launched := launched s; open := open s;
     log := EvSleep ms :: log s |}.

Definition outcome (r : option Error) : Res unit :=
  match r with Some e => Throw e | None => Ok tt end.

(** [JSON] responses. *)
Record Response := mkResponse { status : Z; body : value }.

Definition json (code : Z) (payload : value) : Response :=
  {| status := code; body := to_json payload |}.

(** A finished request: the response sent and the state it was sent in. *)
Record Run := mkRun { response : Response; final : State }.

(** [a && b], where evaluating [b] may throw. *)
Definition and_then (a : value) (b : Res value) : Res value :=
  if truthy a then b else Ok a.

(** [recv.startsWith(p)]: a [TypeError] when [recv] is [null] or
    [undefined] (or any value without the method). *)
Definition startsWith_method (p : string) (recv : value) : Res value :=
  match recv with
  | VStr s => Ok (VBool (startsWith p s))
  | _ => Throw (type_error "Cannot read properties of null (reading 'startsWith')")
  end.

(** [Promise.all]: the tasks settle one at a time in some order; each
    fills its own slot; the first rejection rejects the whole.  Whatever
    the order lists, every task settles in the end. *)
Fixpoint settle (tasks : list (Res value)) (order : list nat)
    (slots : list (option value)) : Res (list (option value)) :=
  match order with
  | [] => Ok slots
  | i :: rest =>
      match tasks !! i with
      | Some (Ok v) => settle tasks rest (<[i := Some v]> slots)
      | Some (Throw e) => Throw e
      | None => settle tasks rest slots
      end
  end.

Definition promise_all (order : list nat) (tasks : list (Res value)) : Res (list value) :=
  let n := List.length tasks in
  match settle tasks (order ++ seq 0 n) (replicate n None) with
  | Ok slots => Ok (omap id slots)
  | Throw e => Throw e
  end.

(** ** The handlers *)

Section Handlers.
Context `{DOM} (w : World).

(** An awaited call: the world says whether it throws. *)
Definition call (c : Call) : M unit :=
  fun s => let r := fails w (calls s) c in (outcome r, step c r s).

(** [await new Promise(resolve => setTimeout(resolve, ms))]: cannot throw. *)
Definition sleep (ms : option Z) : M unit :=
  fun s => (Ok tt, pause ms s).

(** The page as the next call will see it. *)
Definition snapshot : M Element :=
  fun s => (Ok (document w (calls s)), s).

(** [await page.evaluate(script)]. *)
Definition evaluate {A} (f : Script) (script : Element -> A) : M A :=
  d ← snapshot; call (Evaluate f);; mret (script d).

(** [await page.waitForSelector(sel, {timeout})], [await page.$(sel)],
    [await page.$$(sel)]: the handle(s) found. *)
Definition waitForSelector (sel : string) (timeout : option Z) : M (option Element) :=
  d ← snapshot; call (WaitForSelector sel timeout);; mret (querySelector sel d).

Definition query (sel : string) : M (option Element) :=
  d ← snapshot; call (Query sel);; mret (querySelector sel d).

Definition query_all (sel : string) : M (list Element) :=
  d ← snapshot; call (QueryAll sel);; mret (querySelectorAll sel d).

(** [process.env.NODE_ENV === 'development']. *)
Definition development : bool :=
  match node_env w with
  | Some e => String.eqb e "development"
  | None => false
  end.

(** The [catch] of every handler. *)
Definition failure (what : string) (error : Error) : Response :=
  json 500 (VObj [("error", VStr what);
                  ("message", VStr (err_message error));
                  ("details", if development then VStr (err_stack error)
                              else VUndefined)]).

(** [async (req, res) => { try { ... } catch (error) { ... } }]: the
    response of the [try] block, or the 500 of the [catch]. *)
Definition handle (what : string) (try_block : M Response) : Run :=
  match try_block initial with
  | (Ok r, s) => {| response := r; final := s |}
  | (Throw e, s) => {| response := failure what e; final := s |}
  end.

(** [const { k } = req.body]. *)
Definition field (k : string) (body : gmap string value) : value :=
  default VUndefined (body !! k).

Definition missing_destination : Response :=
  json 400 (VObj [("error", VStr "Missing required parameter: destination");
                  ("example", VObj [("destination", VStr "Hilton New York")])]).

(** The 404 answers. *)
Definition no_hotel_info : Response :=
  json 404 (VObj [
    ("error", VStr "Could not find hotel information");
    ("message", VStr "The hotel information could not be found. Please try a different hotel name or location.")]).

Definition no_hotel_images : Response :=
  json 404 (VObj [
    ("error", VStr "Could not find hotel images");
    ("message", VStr "No images were found for the specified hotel. Please try a different hotel name or location.")]).

Definition no_valid_images : Response :=
  json 404 (VObj [
    ("error", VStr "Could not find valid hotel images");
    ("message", VStr "No valid images were found after validation. Please try a different hotel name or location.")]).

Definition no_hotel_prices : Response :=
  json 404 (VObj [
    ("error", VStr "Could not find hotel prices");
    ("message", VStr "No price listings were found for the specified hotel. Please try a different hotel name or location.")]).

Definition suggestions_blocked : Response :=
  json 404 (VObj [
    ("error", VStr "No hotel suggestions found. The search might have been blocked.")]).

Definition no_hotel_suggestions : Response :=
  json 404 (VObj [("error", VStr "No hotel suggestions found")]).

(** The search URL for a text that can be encoded. *)
Definition searchUrl (q : string) : string :=
  "https://www.google.com/travel/search?q=" +:+ escape q.

(** [`https://www.google.com/travel/search?q=${encodeURIComponent(v)}`]:
    [encodeURIComponent] converts [v] to a string and encodes it, and
    either step may throw. *)
Definition searchUrl_of (v : value) : Res string :=
  match to_string v with
  | Throw e => Throw e
  | Ok text =>
      match encodeURIComponent text with
      | Throw e => Throw e
      | Ok encoded => Ok ("https://www.google.com/travel/search?q=" +:+ encoded)
      end
  end.

(** *** POST /api/hotel-info *)

Definition hotel_info (body : gmap string value) : Run :=
  handle "Failed to scrape hotel information" (
    let destination := field "destination" body in
    if negb (truthy destination) then mret missing_destination
    else
      call (Launch Puppeteer);;
      call NewPage;;
      call SetViewport;;
      url ← lift (searchUrl_of destination);
      call (Goto url);;
      aboutTabExists ← evaluate CheckAboutTab
        (fun d => bool_decide (is_Some (querySelector sel_about_tab d)));
      (if aboutTabExists : bool then call (Click sel_about_tab)
       else
         waitForSelector sel_entity_link (Some 15000);;
         call (Click sel_entity_link);;
         call (WaitForNavigation None);;
         waitForSelector sel_about_tab (Some 15000);;
         call (Click sel_about_tab));;
      waitForSelector sel_about_section (Some 15000);;
      hotelInfo ← evaluate ExtractHotelInfo extract_hotel_info;
      sleep (Some 5000);;
      call Close;;
      if negb (truthy hotelInfo) then
        mret no_hotel_info
      else mret (json 200 (VObj [("hotelInfo", hotelInfo)]))).

(** *** Image validation *)

(** [validateImageUrl]: the [try] body, then the [catch] that turns any
    exception into [false]. *)
Definition validateImageUrl (i : nat) (url : value) : Res value :=
  let attempt :=
    match head_request w i url with
    | FetchError e => Throw e
    | FetchResponse ok content_type =>
        let contentType :=
          match content_type with Some s => VStr s | None => VNull end in
        and_then (VBool ok)
          (and_then (VBool (negb (is_null contentType)))
             (startsWith_method "image/" contentType))
    end in
  match attempt with
  | Ok v => Ok v
  | Throw _error => Ok (VBool false)
  end.

(** [async (image) => { const isValid = await validateImageUrl(image.url);
    return isValid ? image : null; }] for the [i]-th candidate. *)
Definition validation_task (i : nat) (image : value) : Res value :=
  match validateImageUrl i (get "url" image) with
  | Ok isValid => Ok (if truthy isValid then image else VNull)
  | Throw e => Throw e
  end.

Definition validatedImages (hotelImages : list value) : Res (list value) :=
  promise_all (completion_order w) (imap validation_task hotelImages).

Definition validImages (validated : list value) : list value :=
  List.filter (fun image => negb (is_null image)) validated.

(** *** The three ways of clicking the entity link (images and prices) *)

Definition click_entity_link : M unit :=
  try_catch (call (Click sel_entity_ch))
    (fun _ =>
       try_catch (evaluate ClickEntityLink (fun _ => tt))
         (fun _ =>
            element ← query sel_entity_ch;
            match element with
            | Some _ => call HandleClick
            | None => mret tt
            end)).

(** *** POST /api/hotel-images *)

Definition hotel_images (body : gmap string value) : Run :=
  handle "Failed to scrape hotel images" (
    let destination := field "destination" body in
    if negb (truthy destination) then mret missing_destination
    else
      call (Launch Puppeteer);;
      call NewPage;;
      call SetViewport;;
      url ← lift (searchUrl_of destination);
      call (Goto url);;
      entityLinkExists ← evaluate CheckEntityLink
        (fun d => bool_decide (is_Some (querySelector sel_entity_ch d)));
      (if entityLinkExists : bool then
         waitForSelector sel_entity_ch (Some 10000);;
         click_entity_link;;
         try_catch (call (WaitForNavigation (Some 15000))) (fun _ => mret tt)
       else mret tt);;
      photosTabExists ← evaluate CheckPhotosTab
        (fun d => bool_decide (is_Some (querySelector sel_photos_tab d)));
      (if photosTabExists : bool then call (Click sel_photos_tab)
       else
         waitForSelector sel_entity_link (Some 15000);;
         call (Click sel_entity_link);;
         call (WaitForNavigation None);;
         waitForSelector sel_photos_tab (Some 15000);;
         call (Click sel_photos_tab));;
      waitForSelector sel_feature (Some 15000);;
      hotelImages ← evaluate ExtractImages extract_images;
      sleep (Some 5000);;
      call Close;;
      if negb (truthy (VArr hotelImages)) || (List.length hotelImages =? 0)%nat then
        mret no_hotel_images
      else
        validated ← lift (validatedImages hotelImages);
        let valid := validImages validated in
        if (List.length valid =? 0)%nat then
          mret no_valid_images
        else mret (json 200 (VObj [("hotelImages", VArr valid)]))).

(** *** POST /api/hotel-prices *)

Definition missing_price_parameters : Response :=
  json 400 (VObj [
    ("error", VStr "Missing required parameters");
    ("required", VObj [
       ("hotelName", VStr "Name of the hotel");
       ("location", VStr "City or location");
       ("checkInDate", VStr "Check-in date (YYYY-MM-DD)");
       ("checkOutDate", VStr "Check-out date (YYYY-MM-DD)")])]).

Definition click_prices_tab : M unit :=
  try_catch
    (pricesTab ← waitForSelector sel_prices_tab (Some 5000);
     match pricesTab with
     | Some _ => call HandleClick
     | None => mret tt
     end)
    (fun _ => mret tt).

Definition hotel_prices (body : gmap string value) : Run :=
  handle "Failed to fetch hotel prices" (
    let hotelName := field "hotelName" body in
    let location := field "location" body in
    let checkInDate := field "checkInDate" body in
    let checkOutDate := field "checkOutDate" body in
    if negb (truthy hotelName) || negb (truthy location) ||
       negb (truthy checkInDate) || negb (truthy checkOutDate)
    then mret missing_price_parameters
    else
      call (Launch Playwright);;
      call NewContext;;
      call SetExtraHTTPHeaders;;
      call NewPage;;
      searchQuery ← lift (template [Hole hotelName; Text " "; Hole location]);
      url ← lift (searchUrl_of (VStr searchQuery));
      call (Goto url);;
      call (WaitForTimeout 3000);;
      entityLinkExists ← evaluate CheckEntityLink
        (fun d => bool_decide (is_Some (querySelector sel_entity_ch d)));
      (if entityLinkExists : bool then
         waitForSelector sel_entity_ch (Some 10000);;
         click_entity_link;;
         try_catch (call (WaitForNavigation (Some 15000))) (fun _ => mret tt);;
         click_prices_tab;;
         call (WaitForTimeout 3000)
       else
         click_prices_tab;;
         call (WaitForTimeout 3000));;
      priceListings ← evaluate ExtractPrices extract_prices;
      call Close;;
      if negb (truthy (VArr priceListings)) || (List.length priceListings =? 0)%nat then
        mret no_hotel_prices
      else mret (json 200 (VObj [("prices", VArr priceListings)]))).

(** *** POST /api/hotel-suggestions *)

(** [formatDate(v)]: [new Date(v)] first converts an object to a
    primitive, which throws exactly when [ToString] does; how the date then
    reads is the world's [formatDate]. *)
Definition format_date (v : value) : Res string :=
  match to_string v with
  | Throw e => Throw e
  | Ok _ => Ok (formatDate w v)
  end.

(** [searchQuery]: the two dates are formatted first, then the template is
    filled. *)
Definition searchQuery (body : gmap string value) : Res string :=
  match format_date (field "checkIn" body) with
  | Throw e => Throw e
  | Ok formattedCheckIn =>
      match format_date (field "checkOut" body) with
      | Throw e => Throw e
      | Ok formattedCheckOut =>
          template [Text "best hotel deals in "; Hole (field "destination" body);
                    Text " "; Hole (VStr formattedCheckIn);
                    Text " to "; Hole (VStr formattedCheckOut)]
      end
  end.

(** [for (const char of searchQuery)]: type the code point, then pause. *)
Fixpoint type_query (chars : list string) : M unit :=
  match chars with
  | [] => mret tt
  | char :: rest =>
      call (HandleType char);;
      sleep None;;
      type_query rest
  end.

(** [for (const option of guestOptions)]: click the first option whose
    text names the guest count, and stop there.  The template in the test
    is filled anew for every option read; [i] is the position of the first
    option of the list among the handles.  A handle stands for the element
    as [page.$$] found it: the text read is the one the option had then. *)
Fixpoint select_guests (travelers : value) (i : nat) (guestOptions : list Element)
    : M unit :=
  match guestOptions with
  | [] => mret tt
  | option :: rest =>
      call (OptionTextContent i);;
      let text := textContent option in
      wanted ← lift (template [Hole travelers; Text " guests"]);
      if includes wanted text then call (OptionClick i)
      else select_guests travelers (S i) rest
  end.

(** [randomDelay()]. *)
Definition randomDelay : M unit := sleep None.

Definition hotel_suggestions (body : gmap string value) : Run :=
  handle "Failed to scrape hotel deals" (
    let travelers := field "travelers" body in
    call (Launch Playwright);;
    call NewContext;;
    call NewPage;;
    call AddInitScript;;
    call Route;;
    call (Goto "https://www.google.com");;
    randomDelay;;
    call MouseMove;;
    randomDelay;;
    query ← lift (searchQuery body);
    waitForSelector sel_search_box None;;
    type_query (code_points query);;
    randomDelay;;
    call (KeyboardPress "Enter");;
    randomDelay;;
    waitForSelector sel_guests (Some 30000);;
    call (Click sel_guests);;
    waitForSelector sel_guest_menu (Some 10000);;
    guestOptions ← query_all sel_guest_option;
    select_guests travelers 0 guestOptions;;
    call (WaitForTimeout 3000);;
    blocked ← try_catch
      (waitForSelector sel_suggestions (Some 30000);; mret None)
      (fun _ =>
         call Close;;
         mret (Some suggestions_blocked));
    match blocked with
    | Some early => mret early
    | None =>
        hotelSuggestions ← evaluate ExtractSuggestions extract_suggestions;
        call Close;;
        if negb (truthy (VArr hotelSuggestions)) || (List.length hotelSuggestions =? 0)%nat then
          mret no_hotel_suggestions
        else mret (json 200 (VObj [("hotelSuggestions", VArr hotelSuggestions)]))
    end).

End Handlers.

(** * Specification vocabulary *)

(** ** Payloads *)

(** What [JSON.stringify] makes of an array item. *)
Definition item_json (x : value) : value :=
  match x with VUndefined => VNull | _ => to_json x end.

(** The items of an array value. *)
Definition items (v : value) : list value :=
  match v with VArr l => l | _ => [] end.

(** The values that [x || ''] turns into a string. *)
Definition stringy (v : value) : Prop :=
  match v with
  | VStr _ | VUndefined | VNull => True
  | _ => False
  end.





(** A failure response. *)
Definition failed (r : Response) : Prop :=
  status r = 400 \/ status r = 404 \/ status r = 500.

(** ** Image validation, in the words of the specification *)

(** The [HEAD] request succeeds (the response is [ok]) and its
    [content-type] header is present and starts with [image/]. *)
Definition head_accepts `{DOM} (w : World) (i : nat) (url : value) : bool :=
  match head_request w i url with
  | FetchResponse true (Some content_type) => startsWith "image/" content_type
  | _ => false
  end.

(** What the validation pass leaves in slot [i]: the image, or [null]. *)
Definition verdict `{DOM} (w : World) (i : nat) (image : value) : value :=
  if head_accepts w i (get "url" image) then image else VNull.

(** The candidates that pass, each with its position. *)
Definition accepted `{DOM} (w : World) (hotelImages : list value) : list (nat * value) :=
  List.filter (fun '(i, image) => head_accepts w i (get "url" image))
    (imap pair hotelImages).

(** ** States and logs *)

(** [wp m Q s]: running [m] from [s] ends in a result and a state that [Q]
    accepts. *)
Definition wp {A} (m : M A) (Q : Res A -> State -> Prop) (s : State) : Prop :=
  Q (m s).1 (m s).2.

(** A block that only awaits page calls leaves the browser flags alone and
    only adds to the log. *)
Definition frames (s s' : State) : Prop :=
  launched s' = launched s /\ open s' = open s /\
  exists added, log s' = added ++ log s.

(** The calls that neither launch nor close a browser nor wait for a
    selector. *)
Definition minor (c : Call) : Prop :=
  match c with
  | Launch _ | Close | WaitForSelector _ _ => False
  | _ => True
  end.

(** The log of [s] starts (oldest event) with [ev]. *)
Definition began (ev : Event) (s : State) : Prop :=
  exists later, log s = later ++ [ev].

(** The first thing a run did was to ask for a browser. *)
Definition launch_attempted (s : State) : Prop :=
  exists r, began (EvCall (Launch Playwright) r) s.

(** The browser was launched and is closed again. *)
Definition torn_down (s : State) : Prop :=
  launched s = true /\ open s = false.

(** [error] on every failure, [message] on every 500 and, as [on_404]
    says, on a 404; no [message] on a 400. *)
Definition failure_shape (on_404 : bool) (r : Response) : Prop :=
  (failed r -> has_field "error" (body r) = true) /\
  (status r = 500 -> has_field "message" (body r) = true) /\
  (status r = 404 -> has_field "message" (body r) = on_404) /\
  (status r = 400 -> has_field "message" (body r) = false).

(** The check of the four required fields of hotel-prices. *)
Definition prices_missing (body : gmap string value) : bool :=
  negb (truthy (field "hotelName" body)) || negb (truthy (field "location" body)) ||
  negb (truthy (field "checkInDate" body)) || negb (truthy (field "checkOutDate" body)).

(** ** Hypotheses on the request *)

(** The texts a handler builds from the request before it navigates or
    types can be built: no field is an object that cannot be converted, and
    the text to encode has no lone surrogate.  Every request whose fields
    are well-formed strings is such a request. *)
Definition destination_encodes (body : gmap string value) : Prop :=
  exists url, searchUrl_of (field "destination" body) = Ok url.

(** The search URL of hotel-prices and the text looked for in the guest
    options, as the handlers build them. *)
Definition prices_search (body : gmap string value) : Res string :=
  match template [Hole (field "hotelName" body); Text " ";
                  Hole (field "location" body)] with
  | Throw e => Throw e
  | Ok searchQuery => searchUrl_of (VStr searchQuery)
  end.

Definition guests_wanted (body : gmap string value) : Res string :=
  template [Hole (field "travelers" body); Text " guests"].

Definition prices_search_encodes (body : gmap string value) : Prop :=
  exists url, prices_search body = Ok url.


(** [e] is what a run threw: the error of an awaited call, or the error of
    one of the texts the handler builds from the request. *)
Definition thrown `{DOM} (w : World) (texts : list (Res string)) (e : Error) : Prop :=
  (exists n c, fails w n c = Some e) \/ Throw e ∈ texts.

(** ** Hypotheses on the world *)



(** ** Every run of a handler, by the response it sends *)

Section Outcomes.
Context `{DOM} (w : World).

(** What a block that throws has met: a minor call that failed. *)
Definition minor_failure (r : Res unit) : Prop :=
forall e, r = Throw e -> exists n c, fails w n c = Some e /\ minor c.

(** In each of the four, [_failed] is the 500 after an awaited call threw
    and [_threw] the 500 after the handler's own code threw while building
    a text from the request; both leave a launched browser open. *)
Inductive info_run (body : gmap string value) : Run -> Prop :=
| info_rejected :
  truthy (field "destination" body) = false ->
  info_run body (mkRun missing_destination initial)
| info_failed e s n c :
  truthy (field "destination" body) = true ->
  fails w n c = Some e ->
  (launched s = true -> open s = true) ->
  info_run body (mkRun (failure w "Failed to scrape hotel information" e) s)
| info_not_found n m s :
  truthy (field "destination" body) = true ->
  fails w n (WaitForSelector sel_about_section (Some 15000)) = None ->
  truthy (extract_hotel_info (document w m)) = false ->
  torn_down s ->
  info_run body (mkRun no_hotel_info s)
| info_found n m s :
  truthy (field "destination" body) = true ->
  fails w n (WaitForSelector sel_about_section (Some 15000)) = None ->
  truthy (extract_hotel_info (document w m)) = true ->
  torn_down s ->
  info_run body
    (mkRun (json 200 (VObj [("hotelInfo", extract_hotel_info (document w m))])) s)
| info_threw e s :
  truthy (field "destination" body) = true ->
  searchUrl_of (field "destination" body) = Throw e ->
  launched s = true -> open s = true ->
  info_run body (mkRun (failure w "Failed to scrape hotel information" e) s).

Inductive images_run (body : gmap string value) : Run -> Prop :=
| images_rejected :
  truthy (field "destination" body) = false ->
  images_run body (mkRun missing_destination initial)
| images_failed e s n c :
  truthy (field "destination" body) = true ->
  fails w n c = Some e ->
  (launched s = true -> open s = true) ->
  images_run body (mkRun (failure w "Failed to scrape hotel images" e) s)
| images_none n m s :
  truthy (field "destination" body) = true ->
  fails w n (WaitForSelector sel_feature (Some 15000)) = None ->
  extract_images (document w m) = [] ->
  torn_down s ->
  images_run body (mkRun no_hotel_images s)
| images_invalid n m s :
  truthy (field "destination" body) = true ->
  fails w n (WaitForSelector sel_feature (Some 15000)) = None ->
  validImages (imap (verdict w) (extract_images (document w m))) = [] ->
  torn_down s ->
  images_run body (mkRun no_valid_images s)
| images_found n m s :
  truthy (field "destination" body) = true ->
  fails w n (WaitForSelector sel_feature (Some 15000)) = None ->
  validImages (imap (verdict w) (extract_images (document w m))) <> [] ->
  torn_down s ->
  images_run body
    (mkRun (json 200 (VObj [("hotelImages",
              VArr (validImages (imap (verdict w) (extract_images (document w m)))))])) s)
| images_threw e s :
  truthy (field "destination" body) = true ->
  searchUrl_of (field "destination" body) = Throw e ->
  launched s = true -> open s = true ->
  images_run body (mkRun (failure w "Failed to scrape hotel images" e) s).

Inductive prices_run (body : gmap string value) : Run -> Prop :=
| prices_rejected :
  prices_missing body = true ->
  prices_run body (mkRun missing_price_parameters initial)
| prices_failed e s n c :
  prices_missing body = false ->
  fails w n c = Some e ->
  (launched s = true -> open s = true) ->
  prices_run body (mkRun (failure w "Failed to fetch hotel prices" e) s)
| prices_none m s :
  prices_missing body = false ->
  extract_prices (document w m) = [] ->
  torn_down s ->
  prices_run body (mkRun no_hotel_prices s)
| prices_found m s :
  prices_missing body = false ->
  extract_prices (document w m) <> [] ->
  torn_down s ->
  prices_run body
    (mkRun (json 200 (VObj [("prices", VArr (extract_prices (document w m)))])) s)
| prices_threw e s :
  prices_missing body = false ->
  prices_search body = Throw e ->
  launched s = true -> open s = true ->
  prices_run body (mkRun (failure w "Failed to fetch hotel prices" e) s).

Inductive suggestions_run (body : gmap string value) : Run -> Prop :=
| suggestions_failed e s n c :
  fails w n c = Some e ->
  c <> WaitForSelector sel_suggestions (Some 30000) ->
  launch_attempted s ->
  (launched s = true -> open s = true) ->
  suggestions_run body (mkRun (failure w "Failed to scrape hotel deals" e) s)
| suggestions_timed_out n e s :
  fails w n (WaitForSelector sel_suggestions (Some 30000)) = Some e ->
  torn_down s ->
  launch_attempted s ->
  suggestions_run body (mkRun suggestions_blocked s)
| suggestions_none n m s :
  fails w n (WaitForSelector sel_suggestions (Some 30000)) = None ->
  extract_suggestions (document w m) = [] ->
  torn_down s ->
  launch_attempted s ->
  suggestions_run body (mkRun no_hotel_suggestions s)
| suggestions_found n m s :
  fails w n (WaitForSelector sel_suggestions (Some 30000)) = None ->
  extract_suggestions (document w m) <> [] ->
  torn_down s ->
  launch_attempted s ->
  suggestions_run body
    (mkRun (json 200 (VObj [("hotelSuggestions",
              VArr (extract_suggestions (document w m)))])) s)
| suggestions_threw e s :
  searchQuery w body = Throw e \/ guests_wanted body = Throw e ->
  launch_attempted s ->
  launched s = true -> open s = true ->
  suggestions_run body (mkRun (failure w "Failed to scrape hotel deals" e) s).

End Outcomes.

(** ** Concrete pages, worlds and requests *)

#[export] Instance Engine_eq_dec : EqDecision Engine.
Proof. solve_decision. Defined.
#[export] Instance Script_eq_dec : EqDecision Script.
Proof. solve_decision. Defined.
#[export] Instance Call_eq_dec : EqDecision Call.
Proof. solve_decision. Defined.

Definition element (text : string) (matches : list (string * list Node)) : Node :=
  mkNode text [] "" [] matches [].

Definition blank : Node := element "" [].

Definition timeout_error : Error :=
  mkError "Waiting failed: timeout exceeded" "TimeoutError: Waiting failed".

(** Every call succeeds, every [HEAD] request finds a JPEG. *)
Definition quiet (page : Node) : World :=
  {| fails := fun _ _ => None;
     document := fun _ => page;
     head_request := fun _ _ => FetchResponse true (Some "image/jpeg");
     completion_order := [];
     node_env := None;
     formatDate := fun _ => "Invalid Date" |}.

(** As [quiet], but the call [c] throws whenever the handler awaits it. *)
Definition failing (c : Call) (page : Node) : World :=
  {| fails := fun _ c' => if decide (c' = c) then Some timeout_error else None;
     document := fun _ => page;
     head_request := fun _ _ => FetchResponse true (Some "image/jpeg");
     completion_order := [];
     node_env := None;
     formatDate := fun _ => "Invalid Date" |}.

(** A search page that already shows the About tab. *)
Definition page_with_about_tab : Node :=
  element "" [(sel_about_tab, [element "About" []])].

(** A page whose only [div] holds one booking link, with nothing inside. *)
Definition bare_room : Node :=
  mkNode "" [("href", "/aclk?sa=l")] "" [] [] [].
Definition page_with_bare_room : Node :=
  element "" [("div", [element "" [(sel_aclk, [bare_room])]])].

Definition hilton : gmap string value :=
  {[ "destination" := VStr "Hilton New York" ]}.

Definition no_fields : gmap string value := ∅.

Definition price_request : gmap string value :=
  {[ "hotelName" := VStr "Hilton"; "location" := VStr "New York";
     "checkInDate" := VStr "2025-06-01"; "checkOutDate" := VStr "2025-06-03" ]}.

(** Twelve photos.  In [photo_world] the request for the third is answered
    with an error status and an HTML body, the request for the fifth
    throws. *)
Definition photo (n : string) : Node :=
  mkNode "" [("src", "https://img.example/" +:+ n); ("alt", "Photo " +:+ n)] "" [] []
    [(sel_feature, element ("Caption " +:+ n) [])].
Definition page_with_photos : Node :=
  element "" [(sel_photos_tab, [element "Photos" []]);
              (sel_photo_img,
               photo <$> ["1"; "2"; "3"; "4"; "5"; "6"; "7"; "8"; "9"; "10"; "11"; "12"])].

(** Twelve result cards, each with only its name. *)
Definition card (n : string) : Node :=
  element "" [("h2.BgYkof", [element ("Hotel " +:+ n) []])].
Definition page_with_cards : Node :=
  element "" [(sel_suggestions,
               card <$> ["1"; "2"; "3"; "4"; "5"; "6"; "7"; "8"; "9"; "10"; "11"; "12"])].

Definition photo_world : World :=
  {| fails := fun _ _ => None;
     document := fun _ => page_with_photos;
     head_request := fun i _ =>
       if decide (i = 2%nat) then FetchResponse false (Some "text/html")
       else if decide (i = 4%nat) then FetchError timeout_error
       else FetchResponse true (Some "image/jpeg");
     completion_order := [9; 3; 0; 7]%nat;
     node_env := None;
     formatDate := fun _ => "Invalid Date" |}.

(** * Further vocabulary *)

(** The characters of a string. *)
Abbreviation chars := list_ascii_of_string.

(** The trimmed texts of the [span]s of a room link, as the price search
    reads them. *)
Definition span_texts `{DOM} (room : Element) : list string :=
  map (fun s => trim (textContent s)) (querySelectorAll "span" room).

(** The texts the two price fields look for: not empty and with a dollar
    sign; without the word taxes for [basePrice], with it for
    [totalPrice]. *)
Definition base_price_text (t : string) : bool :=
  negb (String.eqb t "") &&
  (includes "$" t && negb (includes "taxes" (toLowerCase t))).

Definition total_price_text (t : string) : bool :=
  negb (String.eqb t "") &&
  (includes "$" t && includes "taxes" (toLowerCase t)).

(** [x] is the first item of [l] that [p] accepts. *)
Definition first_such {A} (p : A -> bool) (l : list A) (x : A) : Prop :=
  exists before after,
    l = before ++ x :: after /\ Forall (fun y => p y = false) before /\
    p x = true.

(** [p] accepts no item of [l]. *)
Definition none_such {A} (p : A -> bool) (l : list A) : Prop :=
  Forall (fun y => p y = false) l.

(** ** The life of a browser session, read off the log *)

(** An event that neither asks for a browser nor closes one. *)
Definition page_event (ev : Event) : Prop :=
  match ev with
  | EvCall (Launch _) _ | EvCall Close _ => False
  | _ => True
  end.

(** A log (newest event first) of a session that is under way: one
    successful launch, then page events only. *)
Inductive live : list Event -> Prop :=
| live_launch engine : live [EvCall (Launch engine) None]
| live_page ev l : page_event ev -> live l -> live (ev :: l).

(** The logs a well-behaved handler can leave: nothing at all; one failed
    launch and nothing else; a session under way; or a session whose last
    event is the one call to [browser.close()]. *)
Inductive lifecycle : list Event -> Prop :=
| lifecycle_idle : lifecycle []
| lifecycle_no_browser engine e : lifecycle [EvCall (Launch engine) (Some e)]
| lifecycle_live l : live l -> lifecycle l
| lifecycle_closed r l : live l -> lifecycle (EvCall Close r :: l).

(** A block that adds page events only. *)
Definition extends (s s' : State) : Prop :=
  exists added, log s' = added ++ log s /\ Forall page_event added.

(** The fixed pause of hotel-info and hotel-images: the last two events of
    the log, the last two things done with the browser or a timer, are the
    five-second pause and the successful close. *)
Definition paused_then_closed (r : Run) : Prop :=
  exists rest, log (final r) = EvCall Close None :: EvSleep (Some 5000) :: rest.

(** The failures the handlers absorb: the direct click on the entity link,
    the click through [page.evaluate], the wait for the navigation that
    follows and, in hotel-prices, the wait for the Prices tab. *)
Definition images_tolerated (c : Call) : Prop :=
  c = Click sel_entity_ch \/ c = Evaluate ClickEntityLink \/
  c = WaitForNavigation (Some 15000).

Definition prices_tolerated (c : Call) : Prop :=
  images_tolerated c \/ c = WaitForSelector sel_prices_tab (Some 5000).

(** Only tolerated calls ever throw. *)
Definition only_fails `{DOM} (w : World) (tolerated : Call -> Prop) : Prop :=
  forall n c e, fails w n c = Some e -> tolerated c.

(** ** What hotel-suggestions types and chooses *)

(** The texts of the [type] calls of a log, oldest first: all of them, and
    those that went through. *)
Fixpoint type_calls (l : list Event) : list string :=
  match l with
  | [] => []
  | EvCall (HandleType char) _ :: rest => type_calls rest ++ [char]
  | _ :: rest => type_calls rest
  end.

Fixpoint typed (l : list Event) : list string :=
  match l with
  | [] => []
  | EvCall (HandleType char) None :: rest => typed rest ++ [char]
  | _ :: rest => typed rest
  end.

(** The calls on the handles of the guest options in a log, oldest first. *)
Fixpoint option_calls (l : list Event) : list Call :=
  match l with
  | [] => []
  | EvCall (OptionTextContent i) _ :: rest => option_calls rest ++ [OptionTextContent i]
  | EvCall (OptionClick i) _ :: rest => option_calls rest ++ [OptionClick i]
  | _ :: rest => option_calls rest
  end.

(** The position of the first option whose text names the guest count: the
    number of options when none does. *)
Fixpoint first_match `{DOM} (wanted : string) (options : list Element) : nat :=
  match options with
  | [] => 0
  | o :: rest =>
      if includes wanted (textContent o) then 0 else S (first_match wanted rest)
  end.

(** The reads of the [j] options from the [i]-th on, in order. *)
Definition reads (i j : nat) : list Call := OptionTextContent <$> seq i j.

(** The calls of a whole pass over [count] options, the first of them the
    [i]-th handle, of which the [k]-th is the first to match: the options
    up to it are read in order, and it is clicked; all are read and none is
    clicked when [k] is past the last. *)
Definition guest_calls_from (i k count : nat) : list Call :=
  reads i (Nat.min (S k) count) ++
  (if (k <? count)%nat then [OptionClick (i + k)] else []).

Definition guest_calls : nat -> nat -> list Call := guest_calls_from 0.

(** The options are read in order from the [i]-th on; a click, if there is
    one, is the last call and is on the option read last. *)
Definition orderly_from (i : nat) (made : list Call) : Prop :=
  exists j, made = reads i j \/ made = reads i (S j) ++ [OptionClick (i + j)].

(** The texts of a list put end to end. *)
Definition joined (l : list string) : string := foldr String.append "" l.

(** What a run of hotel-suggestions has typed and chosen.  The options are
    those of the page as the call to [page.$$] sees it: twelve calls and the
    typing of the query come before it. *)
Definition suggestions_trace `{DOM} (w : World) (body : gmap string value)
    (r : Run) : Prop :=
  lifecycle (log (final r)) /\
  orderly_from 0 (option_calls (log (final r))) /\
  match searchQuery w body with
  | Throw _ =>
      status (response r) = 500 /\
      type_calls (log (final r)) = [] /\ option_calls (log (final r)) = []
  | Ok query =>
      type_calls (log (final r)) `prefix_of` code_points query /\
      (status (response r) <> 500 ->
       type_calls (log (final r)) = code_points query /\
       typed (log (final r)) = code_points query /\
       let options :=
         querySelectorAll sel_guest_option
           (document w (12 + length (code_points query))) in
       (options = [] /\ option_calls (log (final r)) = [] \/
        exists wanted,
          guests_wanted body = Ok wanted /\
          option_calls (log (final r))
          = guest_calls (first_match wanted options) (length options)))
  end.

(** The URLs of the [goto] calls of a log, oldest first. *)
Fixpoint navigations (l : list Event) : list string :=
  match l with
  | [] => []
  | EvCall (Goto url) _ :: rest => navigations rest ++ [url]
  | _ :: rest => navigations rest
  end.

(** ** The earlier hotel-images handler (the server kept in src/test.html) *)

Section Earlier.
Context `{DOM} (w : World).

(** As [hotel_images], without the entity-link step before the check for
    the Photos tab. *)
Definition hotel_images_direct (body : gmap string value) : Run :=
  handle w "Failed to scrape hotel images" (
    let destination := field "destination" body in
    if negb (truthy destination) then mret missing_destination
    else
      call w (Launch Puppeteer);;
      call w NewPage;;
      call w SetViewport;;
      url ← lift (searchUrl_of destination);
      call w (Goto url);;
      photosTabExists ← evaluate w CheckPhotosTab
        (fun d => bool_decide (is_Some (querySelector sel_photos_tab d)));
      (if photosTabExists : bool then call w (Click sel_photos_tab)
       else
         waitForSelector w sel_entity_link (Some 15000);;
         call w (Click sel_entity_link);;
         call w (WaitForNavigation None);;
         waitForSelector w sel_photos_tab (Some 15000);;
         call w (Click sel_photos_tab));;
      waitForSelector w sel_feature (Some 15000);;
      hotelImages ← evaluate w ExtractImages extract_images;
      sleep (Some 5000);;
      call w Close;;
      if negb (truthy (VArr hotelImages)) || (List.length hotelImages =? 0)%nat then
        mret no_hotel_images
      else
        validated ← lift (validatedImages w hotelImages);
        let valid := validImages validated in
        if (List.length valid =? 0)%nat then mret no_valid_images
        else mret (json 200 (VObj [("hotelImages", VArr valid)]))).

(** The world as a handler sees it that makes one call less: the answers
    from the [k]-th on are those of the call after. *)
Definition skip (k : nat) : World :=
  {| fails := fun n c => fails w (if (n <? k)%nat then n else S n) c;
     document := fun n => document w (if (n <? k)%nat then n else S n);
     head_request := head_request w;
     completion_order := completion_order w;
     node_env := node_env w;
     formatDate := formatDate w |}.

End Earlier.

(** [m'], run in the world that skips the [k]-th call, does what [m] does
    one call later. *)
Definition behind (k : nat) {A} (m m' : M A) : Prop :=
  forall s s', calls s = S (calls s') -> (k <= calls s')%nat ->
    (m s).1 = (m' s').1 /\
    calls (m s).2 = S (calls (m' s').2) /\ (k <= calls (m' s').2)%nat.

(** ** The test page (src/test.html) *)

(** What the page puts into its result area: text, or markup. *)
Inductive Shown :=
| ShownText (s : string)
| ShownHtml (s : string).

(** What [fetch] and [response.json()] give the page: [fetch] rejects, or
    a response with its [ok] flag and its parsed body (or the error of the
    parse). *)
Inductive HttpReply :=
| NetworkError (e : Error)
| Reply (ok : bool) (data : Res value).

(** The state of the page after a click: what the result area has shown,
    newest first, and the request bodies sent. *)
Record Visit := mkVisit { shown : list Shown; sent : list value }.

Definition error_span (message : string) : string :=
  "<span class=" +:+ dq +:+ "error" +:+ dq +:+ ">" +:+ message +:+ "</span>".

(** [data.k]: a [TypeError] on [null] and [undefined] (its text is the
    one of Chrome and Node; other browsers word it differently). *)
Definition read (k : string) (data : value) : Res value :=
  match data with
  | VNull =>
      Throw (type_error ("Cannot read properties of null (reading '" +:+ k +:+ "')"))
  | VUndefined =>
      Throw (type_error
               ("Cannot read properties of undefined (reading '" +:+ k +:+ "')"))
  | _ => Ok (get k data)
  end.

Section TestPage.
(** [JSON.stringify(data, null, 2)], and whatever answers the [POST]. *)
Variable stringify : value -> string.
Variable server : value -> HttpReply.

Definition fetchHotelInfo (destination : string) : Visit :=
  if negb (truthy (VStr destination)) then
    {| shown := [ShownHtml (error_span "Please enter a hotel name or location")];
       sent := [] |}
  else
    let request := VObj [("destination", VStr destination)] in
    let attempt : Res Shown :=
      match server request with
      | NetworkError e => Throw e
      | Reply ok (Throw e) => Throw e
      | Reply ok (Ok data) =>
          if negb ok then
            match read "error" data with
            | Throw e => Throw e
            | Ok err =>
                match to_string (js_or err (VStr "Failed to fetch hotel info")) with
                | Throw e => Throw e
                | Ok message => Throw (mkError message "Error")
                end
            end
          else Ok (ShownText (stringify data))
      end in
    {| shown :=
         match attempt with
         | Ok result => result
         | Throw error => ShownHtml (error_span ("Error: " +:+ err_message error))
         end :: [ShownText "Loading..."];
       sent := [request] |}.

End TestPage.

(** The body [express.json()] parses from a request: the properties of the
    object, the last one winning when a name repeats. *)
Definition parsed (request : value) : gmap string value :=
  match request with
  | VObj fields => list_to_map (reverse fields)
  | _ => ∅
  end.

(** POST /api/hotel-info as the page reaches it: [response.ok] is a status
    from 200 to 299. *)
Definition served `{DOM} (w : World) (request : value) : HttpReply :=
  let r := response (hotel_info w (parsed request)) in
  Reply ((200 <=? status r) && (status r <=? 299)) (Ok (body r)).

(** ** More concrete pages and worlds *)

(** A search page with an entity link, the Photos tab and two photos. *)
Definition page_with_entity_link : Node :=
  element "" [(sel_entity_ch, [element "Hilton" []]);
              (sel_photos_tab, [element "Photos" []]);
              (sel_photo_img, photo <$> ["1"; "2"])].

(** A result page whose guest menu offers three counts, with one card. *)
Definition page_with_guest_menu : Node :=
  element "" [(sel_guest_option,
               [element "1 guest" []; element "12 guests" []; element "2 guests" []]);
              (sel_suggestions, [card "1"])].

Definition rome_for_two : gmap string value :=
  {[ "destination" := VStr "Rome"; "checkIn" := VStr "2025-06-01";
     "checkOut" := VStr "2025-06-03"; "travelers" := VNum 2 ]}.

(** Both scripted clicks on the entity link fail, and the navigation that
    should follow never happens. *)
Definition clumsy (page : Node) : World :=
  {| fails := fun _ c =>
       if decide (c = Click sel_entity_ch \/ c = Evaluate ClickEntityLink \/
                  c = WaitForNavigation (Some 15000))
       then Some timeout_error else None;
     document := fun _ => page;
     head_request := fun _ _ => FetchResponse true (Some "image/jpeg");
     completion_order := [];
     node_env := None;
     formatDate := fun _ => "Invalid Date" |}.

(** * Reasoning about handlers *)

Section Rules.
Context `{DOM} (w : World).

Lemma wp_ret {A} (a : A) Q s : Q (Ok a) s -> wp (mret a) Q s.
Proof. done. Qed.

Lemma wp_bind {A B} (m : M A) (f : A -> M B) Q s :
  wp m (fun r s' => match r with
                    | Ok a => wp (f a) Q s'
                    | Throw e => Q (Throw e) s'
                    end) s ->
  wp (m ≫= f) Q s.
Proof.
  unfold wp, mbind, M_bind, bind. destruct (m s) as [[a|e] s']; done.
Qed.

Lemma wp_try_catch {A} (m : M A) (h : Error -> M A) Q s :
  wp m (fun r s' => match r with
                    | Ok a => Q (Ok a) s'
                    | Throw e => wp (h e) Q s'
                    end) s ->
  wp (try_catch m h) Q s.
Proof.
  unfold wp, try_catch. destruct (m s) as [[a|e] s']; done.
Qed.

Lemma wp_call c (Q : Res unit -> State -> Prop) s :
  (forall r, fails w (calls s) c = r -> Q (outcome r) (step c r s)) ->
  wp (call w c) Q s.
Proof. intros HQ. unfold wp, call. simpl. by apply HQ. Qed.

Lemma wp_sleep ms (Q : Res unit -> State -> Prop) s :
  Q (Ok tt) (pause ms s) -> wp (sleep ms) Q s.
Proof. done. Qed.

Lemma wp_snapshot (Q : Res Element -> State -> Prop) s :
  Q (Ok (document w (calls s))) s -> wp (snapshot w) Q s.
Proof. done. Qed.

Lemma wp_lift {A} (r : Res A) Q s : Q r s -> wp (lift r) Q s.
Proof. done. Qed.

Lemma handle_wp what (m : M Response) (P : Run -> Prop) :
  wp m (fun r s => match r with
                   | Ok x => P (mkRun x s)
                   | Throw e => P (mkRun (failure w what e) s)
                   end) initial ->
  P (handle w what m).
Proof.
  unfold wp, handle. destruct (m initial) as [[x|e] s]; done.
Qed.

Lemma frames_refl s : frames s s.
Proof. repeat split. by exists []. Qed.

Lemma frames_trans s1 s2 s3 : frames s1 s2 -> frames s2 s3 -> frames s1 s3.
Proof.
  intros (?&?&a1&?) (?&?&a2&?). repeat split; try congruence.
  exists (a2 ++ a1). rewrite <- app_assoc. congruence.
Qed.

Lemma frames_step c r s :
  (forall e, c <> Launch e) -> c <> Close -> frames s (step c r s).
Proof.
  intros Hl Hc. repeat split.
  - destruct c, r; simpl; try done. by destruct (Hl engine).
  - destruct c, r; simpl; try done. by destruct (Hl engine).
  - by exists [EvCall c r].
Qed.

Lemma frames_failed c e s : frames s (step c (Some e) s).
Proof. repeat split; [by destruct c..|by exists [EvCall c (Some e)]]. Qed.

Lemma frames_pause ms s : frames s (pause ms s).
Proof. repeat split. by exists [EvSleep ms]. Qed.

Lemma began_step ev c r s : began ev s -> began ev (step c r s).
Proof. intros [l Hl]. exists (EvCall c r :: l). simpl. by rewrite Hl. Qed.

Lemma began_pause ev ms s : began ev s -> began ev (pause ms s).
Proof. intros [l Hl]. exists (EvSleep ms :: l). simpl. by rewrite Hl. Qed.

Lemma began_frames ev s s' : frames s s' -> began ev s -> began ev s'.
Proof.
  intros (_&_&a&Ha) [l Hl]. exists (a ++ l). by rewrite Ha, Hl, app_assoc.
Qed.

Lemma began_first c r : began (EvCall c r) (step c r initial).
Proof. by exists []. Qed.

End Rules.

Ltac wp_step :=
  lazymatch goal with
  | |- wp (mret _) _ _ => apply wp_ret
  | |- wp (_ ≫= _) _ _ => apply wp_bind
  | |- wp (call _ _) _ _ => apply wp_call; intros [?|] ?; cbn [outcome]
  | |- wp (sleep _) _ _ => apply wp_sleep
  | |- wp randomDelay _ _ => apply wp_sleep
  | |- wp (snapshot _) _ _ => apply wp_snapshot
  | |- wp (try_catch _ _) _ _ => apply wp_try_catch
  | |- wp (lift _) _ _ => apply wp_lift
  | |- wp (evaluate _ _ _) _ _ => unfold evaluate
  | |- wp (waitForSelector _ _ _) _ _ => unfold waitForSelector
  | |- wp (query _ _) _ _ => unfold query
  | |- wp (query_all _ _) _ _ => unfold query_all
  | |- wp (if negb ?b then _ else _) _ _ => destruct b eqn:?; cbn [negb]
  | |- wp (if ?b then _ else _) _ _ => destruct b eqn:?
  | |- wp (match ?o with _ => _ end) _ _ => destruct o eqn:?
  | |- match ?r with Ok _ => _ | Throw _ => _ end => destruct r eqn:?
  end.

(** [frames s s'] for a state [s'] built on [s] by steps and pauses. *)
Ltac frames_solver :=
  repeat first
    [ assumption
    | apply frames_refl
    | eapply frames_trans; [ | apply frames_failed ]
    | eapply frames_trans; [ | apply frames_step; [ intros ?; discriminate | discriminate ] ]
    | eapply frames_trans; [ | apply frames_pause ]
    | eapply frames_trans; [ | eassumption ] ].

(** The browser flags of a state built by steps, pauses and framed blocks. *)
Ltac flags :=
  repeat (cbn [launched open step pause initial];
          try match goal with
              | Hf : frames ?s ?s' |- context [launched ?s'] =>
                  rewrite (proj1 Hf)
              | Hf : frames ?s ?s' |- context [open ?s'] =>
                  rewrite (proj1 (proj2 Hf))
              end);
  done.

Ltac began_solver :=
  repeat first
    [ apply began_first
    | apply began_step
    | apply began_pause
    | eapply began_frames; [ eassumption | ] ].

(** The failed call behind a thrown error. *)
Ltac blame :=
  intros ? [=]; subst; do 2 eexists; (split; [ eassumption | exact I ]).

Section Blocks.
Context `{DOM} (w : World).

Lemma wp_click_entity_link (Q : Res unit -> State -> Prop) s :
  (forall r s', frames s s' -> minor_failure w r -> Q r s') ->
  wp (click_entity_link w) Q s.
Proof.
  intros HQ. unfold click_entity_link.
  repeat wp_step.
  all: apply HQ; [ frames_solver | blame ].
Qed.

Lemma wp_click_prices_tab (Q : Res unit -> State -> Prop) s :
  (forall s', frames s s' -> Q (Ok tt) s') ->
  wp (click_prices_tab w) Q s.
Proof.
  intros HQ. unfold click_prices_tab.
  repeat wp_step.
  all: apply HQ; frames_solver.
Qed.

Lemma wp_swallow_navigation t (Q : Res unit -> State -> Prop) s :
  (forall s', frames s s' -> Q (Ok tt) s') ->
  wp (try_catch (call w (WaitForNavigation t)) (fun _ => mret tt)) Q s.
Proof.
  intros HQ. repeat wp_step.
  all: apply HQ; frames_solver.
Qed.

Lemma wp_type_query (chars : list string) (Q : Res unit -> State -> Prop) s :
  (forall r s', frames s s' -> minor_failure w r -> Q r s') ->
  wp (type_query w chars) Q s.
Proof.
  revert Q s. induction chars as [|c chars IH]; intros Q s HQ; simpl.
  - apply wp_ret. apply HQ; [apply frames_refl | by intros ? [=]].
  - wp_step. wp_step.
    + apply HQ; [ frames_solver | blame ].
    + wp_step. wp_step. apply IH. intros r s' Hf Hm.
      apply HQ; [ frames_solver | done ].
Qed.

(** The guest loop stops on a call that throws or on the template that
    cannot be filled. *)
Lemma wp_select_guests travelers i options (Q : Res unit -> State -> Prop) s :
  (forall r s', frames s s' ->
     (forall e, r = Throw e ->
        (exists n c, fails w n c = Some e /\ minor c) \/
        template [Hole travelers; Text " guests"] = Throw e) ->
     Q r s') ->
  wp (select_guests w travelers i options) Q s.
Proof.
  revert i Q s. induction options as [|o options IH]; intros i Q s HQ;
    cbn [select_guests].
  - apply wp_ret. apply HQ; [apply frames_refl | by intros ? [=]].
  - wp_step. wp_step.
    + apply HQ; [ frames_solver | ].
      intros e' [= <-]. left. do 2 eexists. split; [eassumption | exact I].
    + wp_step. wp_step. cbv beta.
      destruct (template [Hole travelers; Text " guests"]) as [wanted|e] eqn:Hw.
      * destruct (includes wanted (textContent o)).
        -- wp_step.
           ++ apply HQ; [ frames_solver | ].
              intros e' [= <-]. left. do 2 eexists. split; [eassumption | exact I].
           ++ apply HQ; [ frames_solver | by intros ? [=] ].
        -- apply IH. intros r s' Hf Hm. apply HQ; [ frames_solver | done ].
      * apply HQ; [ frames_solver | ]. intros e' [= <-]. by right.
Qed.

End Blocks.

(** ** Image validation *)

Section Validation.
Context `{DOM} (w : World).

Lemma validateImageUrl_spec i url :
  validateImageUrl w i url = Ok (VBool (head_accepts w i url)).
Proof.
  unfold validateImageUrl, head_accepts.
  destruct (head_request w i url) as [e|ok [ct|]]; [done| |];
    by destruct ok.
Qed.

Lemma validation_task_spec i image :
  validation_task w i image = Ok (verdict w i image).
Proof.
  unfold validation_task, verdict. by rewrite validateImageUrl_spec.
Qed.

Lemma validation_tasks hotelImages :
  imap (validation_task w) hotelImages = Ok <$> imap (verdict w) hotelImages.
Proof.
  rewrite fmap_imap. apply imap_ext. intros i x _. apply validation_task_spec.
Qed.

(** Settling tasks that all fulfil never rejects; a slot once filled with
    its task's value keeps it. *)
Lemma settle_fulfilled (vs : list value) order slots :
  exists slots',
    settle (Ok <$> vs) order slots = Ok slots' /\
    length slots' = length slots /\
    (forall i v, vs !! i = Some v -> slots !! i = Some (Some v) ->
                 slots' !! i = Some (Some v)) /\
    (forall i v, i ∈ order -> vs !! i = Some v -> (i < length slots)%nat ->
                 slots' !! i = Some (Some v)).
Proof.
  revert slots. induction order as [|j order IH]; intros slots; simpl.
  - exists slots. repeat split; auto. intros i v Hi. by apply elem_of_nil in Hi.
  - rewrite list_lookup_fmap. destruct (vs !! j) as [vj|] eqn:Hj; simpl.
    + destruct (IH (<[j:=Some vj]> slots)) as (slots' & Hs & Hlen & Hkeep & Hfill).
      exists slots'. rewrite length_insert in Hlen. repeat split; auto.
      * intros i v Hv Hsl. apply Hkeep; [done|].
        destruct (decide (i = j)) as [->|Hne].
        -- rewrite list_lookup_insert_eq; [congruence|].
           by eapply lookup_lt_Some.
        -- by rewrite list_lookup_insert_ne.
      * intros i v Hi Hv Hlt. apply elem_of_cons in Hi as [->|Hi].
        -- apply Hkeep; [done|]. rewrite list_lookup_insert_eq; [congruence|done].
        -- apply Hfill; [done..|]. by rewrite length_insert.
    + destruct (IH slots) as (slots' & Hs & Hlen & Hkeep & Hfill).
      exists slots'. repeat split; auto.
      intros i v Hi Hv Hlt. apply elem_of_cons in Hi as [->|Hi]; [congruence|].
      by apply Hfill.
Qed.

Lemma omap_id_Some {A} (l : list A) : omap id (Some <$> l) = l.
Proof. induction l as [|x l IH]; [done|]. simpl. by f_equal. Qed.

(** [Promise.all] over fulfilled tasks resolves to their values, in the
    order of the tasks, whatever the order of completion. *)
Lemma promise_all_fulfilled order (vs : list value) :
  promise_all order (Ok <$> vs) = Ok vs.
Proof.
  unfold promise_all. rewrite length_fmap.
  destruct (settle_fulfilled vs (order ++ seq 0 (length vs))
              (replicate (length vs) None))
    as (slots' & -> & Hlen & _ & Hfill).
  rewrite length_replicate in Hlen.
  assert (slots' = Some <$> vs) as ->.
  { apply list_eq. intros i. rewrite list_lookup_fmap.
    destruct (vs !! i) as [v|] eqn:Hv; simpl.
    - apply Hfill; [|done|].
      + apply elem_of_app. right. apply elem_of_seq.
        apply lookup_lt_Some in Hv. lia.
      + rewrite length_replicate. by eapply lookup_lt_Some.
    - apply lookup_ge_None. apply lookup_ge_None in Hv. lia. }
  f_equal. apply omap_id_Some.
Qed.

Lemma validatedImages_spec hotelImages :
  validatedImages w hotelImages = Ok (imap (verdict w) hotelImages).
Proof.
  unfold validatedImages. rewrite validation_tasks. apply promise_all_fulfilled.
Qed.

End Validation.

(** ** Every run of a handler, by the response it sends *)

Lemma nonempty_length {A} (l : list A) : length l <> 0%nat -> l <> [].
Proof. intros Hl ->. by apply Hl. Qed.

Ltac empties :=
  repeat match goal with
    | H : (negb (truthy (VArr ?l)) || (length ?l =? 0)%nat) = true |- _ =>
        cbn [truthy negb orb] in H; apply Nat.eqb_eq, nil_length_inv in H
    | H : (negb (truthy (VArr ?l)) || (length ?l =? 0)%nat) = false |- _ =>
        cbn [truthy negb orb] in H; apply Nat.eqb_neq, nonempty_length in H
    | H : (length ?l =? 0)%nat = true |- _ =>
        apply Nat.eqb_eq, nil_length_inv in H
    | H : (length ?l =? 0)%nat = false |- _ =>
        apply Nat.eqb_neq, nonempty_length in H
    end.

Ltac step_block :=
  first
    [ apply wp_click_entity_link; intros [[]|?] ? ? ?
    | apply wp_click_prices_tab; intros ? ?
    | apply wp_swallow_navigation; intros ? ?
    | apply wp_type_query; intros [[]|?] ? ? ?
    | apply wp_select_guests; intros [[]|?] ? ? ?
    | rewrite validatedImages_spec; apply wp_lift
    | wp_step ];
  cbn beta iota.


Ltac blamed k :=
  match goal with
  | Hm : minor_failure _ (Throw ?e) |- _ =>
      destruct (Hm e eq_refl) as (? & ? & ? & ?); k
  | Hm : forall e', Throw ?e = Throw e' -> _ \/ _ |- _ =>
      destruct (Hm e eq_refl) as [(? & ? & ? & ?)|?]; [k|]
  | _ => k
  end.


Ltac differs :=
  first [ discriminate
        | intros [= Hs]; vm_compute in Hs; discriminate
        | intros ->; done ].


Ltac attempted := eexists; began_solver.

(** Rewrite with the results of the texts built so far. *)
Ltac simplify_res :=
  repeat match goal with
    | H : ?r = Ok _ |- context [?r] => rewrite H
    | H : ?r = Throw _ |- context [?r] => rewrite H
    end.


Section Cases.
Context `{DOM} (w : World).

Lemma hotel_info_cases body : info_run w body (hotel_info w body).
Proof.
  unfold hotel_info. apply handle_wp.
  destruct (truthy (field "destination" body)) eqn:Hd; cbn [negb].
  2: { apply wp_ret. by constructor. }
  repeat (wp_step; try (eapply info_failed; [done | eassumption | flags])).
  all: try (eapply info_threw; [done | eassumption | flags | flags]).
  all: try (eapply info_not_found; [done | eassumption | eassumption | split; flags]).
  all: eapply info_found; [done | eassumption | eassumption | split; flags].
Qed.

Lemma hotel_images_cases body : images_run w body (hotel_images w body).
Proof.
  unfold hotel_images. apply handle_wp.
  destruct (truthy (field "destination" body)) eqn:Hd; cbn [negb].
  2: { apply wp_ret. by constructor. }
  repeat (step_block;
          try (blamed ltac:(eapply images_failed; [done | eassumption | flags]))).
  all: try (eapply images_threw; [done | eassumption | flags | flags]).
  all: empties.
  all: try (eapply images_none; [done | eassumption | eassumption | split; flags]).
  all: try (eapply images_invalid; [done | eassumption | eassumption | split; flags]).
  all: eapply images_found; [done | eassumption | eassumption | split; flags].
Qed.

Lemma hotel_prices_cases body : prices_run w body (hotel_prices w body).
Proof.
  unfold hotel_prices. apply handle_wp. cbv zeta. fold (prices_missing body).
  destruct (prices_missing body) eqn:Hd.
  { apply wp_ret. by constructor. }
  repeat (step_block;
          try (blamed ltac:(eapply prices_failed; [done | eassumption | flags]))).
  all: try (eapply prices_threw; [done | unfold prices_search; by simplify_res | flags | flags]).
  all: empties.
  all: try (eapply prices_none; [done | eassumption | split; flags]).
  all: eapply prices_found; [done | eassumption | split; flags].
Qed.

Lemma hotel_suggestions_cases body :
  suggestions_run w body (hotel_suggestions w body).
Proof.
  unfold hotel_suggestions. apply handle_wp. cbv zeta.
  repeat (step_block;
          try (blamed ltac:(eapply suggestions_failed;
                              [eassumption | differs | attempted | flags]))).
  all: try (eapply suggestions_threw; [by left | attempted | flags | flags]).
  all: try (eapply suggestions_threw; [by right | attempted | flags | flags]).
  all: empties.
  all: try (eapply suggestions_timed_out; [eassumption | split; flags | attempted]).
  all: try (eapply suggestions_none; [eassumption | eassumption | split; flags | attempted]).
  all: eapply suggestions_found; [eassumption | eassumption | split; flags | attempted].
Qed.

End Cases.

(** ** The shape of what the extraction scripts return *)

Section Shapes.
Context `{DOM}.


Lemma stringy_str s : stringy (VStr s).
Proof. done. Qed.





End Shapes.

(** ** Responses and payloads *)

Section Responses.
Context `{DOM} (w : World).

Lemma failure_fields what e :
  status (failure w what e) = 500 /\
  has_field "error" (body (failure w what e)) = true /\
  has_field "message" (body (failure w what e)) = true.
Proof. unfold failure. by destruct (development w). Qed.

Lemma array_payload code k l :
  get k (body (json code (VObj [(k, VArr l)]))) = VArr (map item_json l).
Proof. simpl. by rewrite String.eqb_refl. Qed.

Lemma extract_images_records d :
  Forall (fun x => exists img, x = image_record img) (extract_images d).
Proof.
  unfold extract_images. apply Forall_take, Forall_fmap, Forall_forall.
  intros img _. by exists img.
Qed.

Lemma extract_images_not_null d :
  Forall (fun x => is_null x = false) (extract_images d).
Proof.
  eapply Forall_impl; [apply extract_images_records|].
  by intros x [img ->].
Qed.

Lemma extract_images_length d : (length (extract_images d) <= 10)%nat.
Proof. unfold extract_images. rewrite length_take. lia. Qed.

Lemma extract_suggestions_length d : (length (extract_suggestions d) <= 10)%nat.
Proof.
  unfold extract_suggestions. cbv zeta.
  rewrite length_map, length_take. lia.
Qed.

(** The validation pass keeps a sublist of the candidates. *)
Lemma validImages_shift (g : nat -> nat) l :
  Forall (fun x => is_null x = false) l ->
  validImages (imap (fun i => verdict w (g i)) l) =
  (List.filter (fun '(i, image) => head_accepts w i (get "url" image))
     (imap (fun i x => (g i, x)) l)).*2.
Proof.
  revert g. induction l as [|x l IH]; intros g Hl; [done|].
  apply Forall_cons in Hl as [Hx Hl].
  specialize (IH (g ∘ S) Hl). unfold validImages in *.
  cbn [imap List.filter fmap list_fmap].
  change (verdict w (g 0%nat) x)
    with (if head_accepts w (g 0%nat) (get "url" x) then x else VNull).
  destruct (head_accepts w (g 0%nat) (get "url" x)); cbn [negb is_null].
  - rewrite Hx. cbn [negb fmap list_fmap snd]. f_equal. apply IH.
  - apply IH.
Qed.

Lemma validImages_accepted l :
  Forall (fun x => is_null x = false) l ->
  validImages (imap (verdict w) l) = (accepted w l).*2.
Proof. apply (validImages_shift id). Qed.

Lemma accepted_spec l i image :
  (i, image) ∈ accepted w l <->
  l !! i = Some image /\ head_accepts w i (get "url" image) = true.
Proof.
  unfold accepted. rewrite list_elem_of_In, filter_In, <- list_elem_of_In.
  rewrite elem_of_lookup_imap. split.
  - intros [(j & x & [= -> ->] & Hl) Ha]. done.
  - intros [Hl Ha]. split; [|done]. by exists i, image.
Qed.

Lemma accepted_length l : (length (accepted w l) <= length l)%nat.
Proof.
  unfold accepted. etrans; [apply filter_length_le|]. by rewrite length_imap.
Qed.


(** *** What a 200 carries *)

Lemma info_200 req r :
  info_run w req r -> status (response r) = 200 ->
  exists n m,
    fails w n (WaitForSelector sel_about_section (Some 15000)) = None /\
    truthy (extract_hotel_info (document w m)) = true /\
    response r = json 200 (VObj [("hotelInfo", extract_hotel_info (document w m))]).
Proof. destruct 1; simpl; try discriminate. eauto 6. Qed.

Lemma images_200 req r :
  images_run w req r -> status (response r) = 200 ->
  exists n m,
    fails w n (WaitForSelector sel_feature (Some 15000)) = None /\
    (accepted w (extract_images (document w m))).*2 <> [] /\
    response r =
      json 200 (VObj [("hotelImages",
                       VArr (accepted w (extract_images (document w m))).*2)]).
Proof.
  destruct 1 as [| | | |n m s Hd Hf Hv Ht|]; simpl; try discriminate.
  rewrite validImages_accepted in * by apply extract_images_not_null. eauto 6.
Qed.

Lemma prices_200 req r :
  prices_run w req r -> status (response r) = 200 ->
  exists m,
    extract_prices (document w m) <> [] /\
    response r = json 200 (VObj [("prices", VArr (extract_prices (document w m)))]).
Proof. destruct 1; simpl; try discriminate. eauto. Qed.

Lemma suggestions_200 req r :
  suggestions_run w req r -> status (response r) = 200 ->
  exists n m,
    fails w n (WaitForSelector sel_suggestions (Some 30000)) = None /\
    extract_suggestions (document w m) <> [] /\
    response r =
      json 200 (VObj [("hotelSuggestions", VArr (extract_suggestions (document w m)))]).
Proof. destruct 1; simpl; try discriminate. eauto 6. Qed.

(** The provider section holds at least the link it was found by. *)
Lemma provider_section_rooms d p :
  provider_section d = Some p -> querySelectorAll sel_aclk p <> [].
Proof.
  unfold provider_section. intros Hp. apply find_some in Hp as [_ Hq].
  apply bool_decide_eq_true in Hq as [a Ha]. unfold querySelector in Ha.
  by destruct (querySelectorAll sel_aclk p).
Qed.

Lemma provider_section_none d :
  provider_section d = None <->
  forall div, div ∈ querySelectorAll "div" d -> querySelector sel_aclk div = None.
Proof.
  unfold provider_section. split.
  - intros Hn div Hdiv. apply list_elem_of_In in Hdiv.
    pose proof (find_none _ _ Hn _ Hdiv) as Hq. simpl in Hq.
    apply bool_decide_eq_false in Hq.
    destruct (querySelector sel_aclk div); [|done]. by destruct Hq.
  - intros Hall.
    destruct (List.find _ _) as [p|] eqn:Hp; [|done].
    apply find_some in Hp as [Hin Hq]. apply list_elem_of_In in Hin.
    apply bool_decide_eq_true in Hq as [a Ha]. rewrite (Hall _ Hin) in Ha. done.
Qed.

Lemma extract_prices_shape d :
  match provider_section d with
  | None => extract_prices d = []
  | Some p =>
      querySelectorAll sel_aclk p <> [] /\
      extract_prices d =
        [VObj [("rooms", VArr (map room_data (querySelectorAll sel_aclk p)))]]
  end.
Proof.
  unfold extract_prices. destruct (provider_section d) as [p|] eqn:Hp; [|done].
  split; [by eapply provider_section_rooms | done].
Qed.

End Responses.

(** * The claims *)

(** ** Image validation (C10, C2) *)

(** C10: [validateImageUrl] is total.  For every candidate and every answer
    of the network it fulfils with a boolean and never rejects; a [fetch]
    that throws and a response without a [content-type] header both give
    [false]. *)
Theorem validateImageUrl_total `{DOM} (w : World) (i : nat) (url : value) :
  (exists b, validateImageUrl w i url = Ok (VBool b)) /\
  (forall e, head_request w i url = FetchError e ->
             validateImageUrl w i url = Ok (VBool false)) /\
  (forall ok, head_request w i url = FetchResponse ok None ->
              validateImageUrl w i url = Ok (VBool false)).
Proof.
  split; [|split].
  - unfold validateImageUrl.
    destruct (head_request w i url) as [e|[] [ct|]]; simpl; eauto.
  - intros e He. unfold validateImageUrl. by rewrite He.
  - intros ok Hr. unfold validateImageUrl. rewrite Hr. by destruct ok.
Qed.

(** C2: in hotel-images, [validateImageUrl] answers exactly whether the
    candidate's own [HEAD] request is accepted; whatever the order in which
    the concurrent validations complete, the pass never fails the batch;
    slot [i] holds the [i]-th candidate when its own [HEAD] request is
    accepted (response [ok], [content-type] present and starting with
    [image/]) and [null] otherwise;
    the final list is exactly the accepted candidates, in order; and that
    list is what a 200 response carries. *)
Theorem image_validation_iff `{DOM} (w : World) (req : gmap string value)
    (d : Element) :
  let hotelImages := extract_images d in
  (forall i url, validateImageUrl w i url = Ok (VBool (head_accepts w i url))) /\
  validatedImages w hotelImages = Ok (imap (verdict w) hotelImages) /\
  (forall i image, hotelImages !! i = Some image ->
     imap (verdict w) hotelImages !! i =
     Some (if head_accepts w i (get "url" image) then image else VNull)) /\
  validImages (imap (verdict w) hotelImages) = (accepted w hotelImages).*2 /\
  (forall i image,
     (i, image) ∈ accepted w hotelImages <->
     hotelImages !! i = Some image /\ head_accepts w i (get "url" image) = true) /\
  (status (response (hotel_images w req)) = 200 ->
   exists m,
     response (hotel_images w req) =
     json 200 (VObj [("hotelImages",
                      VArr (accepted w (extract_images (document w m))).*2)])).
Proof.
  intros hotelImages. split; [|split; [|split; [|split; [|split]]]].
  - apply validateImageUrl_spec.
  - apply validatedImages_spec.
  - intros i image Hi. by rewrite list_lookup_imap, Hi.
  - apply validImages_accepted, extract_images_not_null.
  - intros i image. apply accepted_spec.
  - intros H200.
    destruct (images_200 w req _ (hotel_images_cases w req) H200) as (n & m & _ & _ & Hr).
    eauto.
Qed.

(** Twelve photos, ten candidates, two rejected: eight returned. *)
Example image_validation_run :
  map (get "alt") (items (get "hotelImages" (body (response (hotel_images photo_world hilton))))) =
  map VStr ["Photo 1"; "Photo 2"; "Photo 4"; "Photo 6"; "Photo 7"; "Photo 8";
            "Photo 9"; "Photo 10"].
Proof. vm_compute. reflexivity. Qed.

(** On the page with twelve photos the 200 carries the accepted candidates. *)
Lemma image_validation_iff_witness :
  exists m,
    response (hotel_images photo_world hilton) =
    json 200 (VObj [("hotelImages",
                     VArr (accepted photo_world
                             (extract_images (document photo_world m))).*2)]).
Proof.
  apply (proj2 (proj2 (proj2 (proj2 (proj2
           (image_validation_iff photo_world hilton blank)))))).
  reflexivity.
Defined.

(** ** Truncation (C5) *)

(** C5: the suggestions extractor maps the first ten matched elements and
    the images extractor keeps the first ten image records, so neither
    returns more than ten; and neither [hotelSuggestions] nor [hotelImages]
    in a response has more than ten items. *)
Theorem extractors_keep_first_ten `{DOM} (w : World) (req : gmap string value)
    (d : Element) :
  extract_suggestions d = map hotel_data (take 10 (querySelectorAll sel_suggestions d)) /\
  extract_images d = take 10 (map image_record (querySelectorAll sel_photo_img d)) /\
  (length (extract_suggestions d) <= 10)%nat /\
  (length (extract_images d) <= 10)%nat /\
  (length (items (get "hotelSuggestions" (body (response (hotel_suggestions w req)))))
   <= 10)%nat /\
  (length (items (get "hotelImages" (body (response (hotel_images w req)))))
   <= 10)%nat.
Proof.
  split; [done|]. split; [done|].
  split; [apply extract_suggestions_length|].
  split; [apply extract_images_length|]. split.
  - destruct (hotel_suggestions_cases w req) as [e s n c| | |n m s|e s];
      cbn [response]; try (vm_compute; lia).
    + unfold failure. destruct (development w); vm_compute; lia.
    + rewrite array_payload. cbn [items]. rewrite length_map.
      apply extract_suggestions_length.
    + unfold failure. destruct (development w); vm_compute; lia.
  - destruct (hotel_images_cases w req) as [|e s n c| | |n m s|e s];
      cbn [response]; try (vm_compute; lia).
    + unfold failure. destruct (development w); vm_compute; lia.
    + rewrite array_payload. cbn [items]. rewrite length_map.
      rewrite validImages_accepted by apply extract_images_not_null.
      rewrite length_fmap. etrans; [apply accepted_length|].
      apply extract_images_length.
    + unfold failure. destruct (development w); vm_compute; lia.
Qed.

(** Twelve result cards on the page: the first ten come back. *)
Example suggestions_truncated :
  map (get "name")
    (items (get "hotelSuggestions"
       (body (response (hotel_suggestions (quiet page_with_cards) hilton))))) =
  map VStr ["Hotel 1"; "Hotel 2"; "Hotel 3"; "Hotel 4"; "Hotel 5"; "Hotel 6";
            "Hotel 7"; "Hotel 8"; "Hotel 9"; "Hotel 10"].
Proof. vm_compute. reflexivity. Qed.

(** ** Price listings (C9) *)

Section Prices.
Context `{DOM} (w : World).

Lemma map_nonempty {A B} (f : A -> B) (l : list A) : l <> [] -> map f l <> [].
Proof. by destruct l. Qed.

(** [find] gives the first element the test accepts. *)
Lemma find_first {A} (f : A -> bool) (l : list A) x :
  List.find f l = Some x <->
  exists before after,
    l = before ++ x :: after /\ Forall (fun y => f y = false) before /\ f x = true.
Proof.
  induction l as [|a l IH]; simpl.
  - split; [done|]. intros (before & after & Hl & _). by destruct before.
  - destruct (f a) eqn:Ha.
    + split.
      * intros [= ->]. by exists [], l.
      * intros ([|b before] & after & Hl & Hb & Hx).
        -- by injection Hl as -> ->.
        -- injection Hl as -> ->. apply Forall_cons in Hb as [Hb _]. congruence.
    + rewrite IH. split.
      * intros (before & after & -> & Hb & Hx).
        exists (a :: before), after. repeat split; [by constructor | done].
      * intros ([|b before] & after & Hl & Hb & Hx).
        -- injection Hl as -> ->. congruence.
        -- injection Hl as -> ->. apply Forall_cons in Hb as [_ Hb].
           by exists before, after.
Qed.

(** The provider section is the first [div], in document order, that holds
    a booking link. *)
Lemma provider_section_first d p :
  provider_section d = Some p <->
  exists before after,
    querySelectorAll "div" d = before ++ p :: after /\
    Forall (fun div => querySelector sel_aclk div = None) before /\
    querySelector sel_aclk p <> None.
Proof.
  unfold provider_section. rewrite find_first.
  assert (Hlink : forall div,
            bool_decide (is_Some (querySelector sel_aclk div)) = false <->
            querySelector sel_aclk div = None).
  { intros div. rewrite bool_decide_eq_false, <- eq_None_not_Some. done. }
  split; intros (before & after & Hl & Hb & Hp); exists before, after.
  - repeat split; [done| |].
    + eapply Forall_impl; [exact Hb|]. intros div. apply Hlink.
    + apply bool_decide_eq_true in Hp as [a Ha]. congruence.
  - repeat split; [done| |].
    + eapply Forall_impl; [exact Hb|]. intros div. apply Hlink.
    + apply bool_decide_eq_true. by destruct (querySelector sel_aclk p).
Qed.

Lemma prices_payload req r :
  prices_run w req r -> status (response r) = 200 ->
  exists m p,
    provider_section (document w m) = Some p /\
    get "prices" (body (response r)) =
    VArr [VObj [("rooms",
                 VArr (map item_json (map room_data (querySelectorAll sel_aclk p))))]].
Proof.
  intros Hr H200. destruct (prices_200 w req r Hr H200) as (m & Hne & ->).
  exists m. pose proof (extract_prices_shape (document w m)) as Hs.
  destruct (provider_section (document w m)) as [p|]; [|done].
  destruct Hs as [_ Hs]. exists p. split; [done|].
  rewrite array_payload, Hs. done.
Qed.

Lemma prices_rooms req r :
  prices_run w req r -> status (response r) = 200 ->
  exists rooms,
    rooms <> [] /\
    get "prices" (body (response r)) = VArr [VObj [("rooms", VArr rooms)]].
Proof.
  intros Hr H200. destruct (prices_payload req r Hr H200) as (m & p & Hp & ->).
  eexists. split; [|done].
  by apply map_nonempty, map_nonempty, (provider_section_rooms (document w m)).
Qed.

End Prices.

(** C9, as stated, fails in its last part: no 200 response of hotel-prices
    carries a listing whose [rooms] array is empty, since the provider
    section is found by the very link that becomes its first room. *)
Lemma no_listing_without_rooms :
  ~ exists (D : DOM) (w : World) (req : gmap string value) (listing : value),
      status (response (hotel_prices w req)) = 200 /\
      listing ∈ items (get "prices" (body (response (hotel_prices w req)))) /\
      get "rooms" listing = VArr [].
Proof.
  intros (D & w & req & listing & H200 & Hin & Hrooms).
  destruct (prices_rooms w req _ (hotel_prices_cases w req) H200) as (rooms & Hne & Hp).
  rewrite Hp in Hin. cbn [items] in Hin.
  apply list_elem_of_singleton in Hin as ->.
  simpl in Hrooms. by injection Hrooms.
Qed.

(** C9 (amended): the extraction step returns the empty list exactly when
    no [div] holds a link whose [href] starts with [/aclk?]; otherwise it
    returns the single listing of the first [div], in document order, that
    holds such a link, with one room per such link in it, in order, hence at
    least one.  A 404 of hotel-prices comes from an empty extraction; an
    empty extraction gives the 404 when no call fails and the search URL
    can be built from the request; and the single listing of a 200 has a
    non-empty [rooms] array. *)
Theorem prices_listing_shape `{DOM} (w : World) (req : gmap string value)
    (d : Element) :
  (extract_prices d = [] <->
   forall div, div ∈ querySelectorAll "div" d -> querySelector sel_aclk div = None) /\
  (forall before p after,
     querySelectorAll "div" d = before ++ p :: after ->
     Forall (fun div => querySelector sel_aclk div = None) before ->
     querySelector sel_aclk p <> None ->
     querySelectorAll sel_aclk p <> [] /\
     extract_prices d =
       [VObj [("rooms", VArr (map room_data (querySelectorAll sel_aclk p)))]]) /\
  (extract_prices d <> [] ->
   exists before p after,
     querySelectorAll "div" d = before ++ p :: after /\
     Forall (fun div => querySelector sel_aclk div = None) before /\
     querySelector sel_aclk p <> None) /\
  (status (response (hotel_prices w req)) = 404 ->
   exists m, extract_prices (document w m) = []) /\
  ((forall m, extract_prices (document w m) = []) ->
   prices_missing req = false -> (forall n c, fails w n c = None) ->
   prices_search_encodes req ->
   response (hotel_prices w req) = no_hotel_prices) /\
  (status (response (hotel_prices w req)) = 200 ->
   exists rooms,
     rooms <> [] /\
     get "prices" (body (response (hotel_prices w req))) =
       VArr [VObj [("rooms", VArr rooms)]]).
Proof.
  pose proof (extract_prices_shape d) as Hs.
  split; [|split; [|split; [|split; [|split]]]].
  - rewrite <- provider_section_none.
    destruct (provider_section d) as [p|]; [|done].
    destruct Hs as [_ ->]. done.
  - intros before p after Hl Hb Hp.
    assert (Hfound : provider_section d = Some p).
    { apply provider_section_first. by exists before, after. }
    by rewrite Hfound in Hs.
  - intros Hne. destruct (provider_section d) as [p|] eqn:Hp; [|done].
    apply provider_section_first in Hp as (before & after & ?). by exists before, p, after.
  - destruct (hotel_prices_cases w req) as [|e s n c|m s|m s|e s];
      cbn [response]; try (simpl; discriminate); eauto.
    all: by rewrite (proj1 (failure_fields w _ _)).
  - intros Hempty Hreq Hcalm [url Hurl].
    destruct (hotel_prices_cases w req) as [Hd|e s n c Hd Hf|m s|m s _ Hne|e s _ He];
      cbn [response]; [congruence| |done|by destruct (Hne (Hempty m))|congruence].
    rewrite Hcalm in Hf. done.
  - apply (prices_rooms w req _ (hotel_prices_cases w req)).
Qed.

(** The page with one bare room link: one listing, one room. *)
Lemma prices_listing_shape_witness :
  exists rooms,
    rooms <> [] /\
    get "prices" (body (response (hotel_prices (quiet page_with_bare_room) price_request))) =
    VArr [VObj [("rooms", VArr rooms)]].
Proof.
  apply (proj2 (proj2 (proj2 (proj2 (proj2
           (prices_listing_shape (quiet page_with_bare_room) price_request blank)))))).
  reflexivity.
Defined.

(** ** String fields (C6) *)

(** Read a named property off a record written out in full. *)
Ltac read_field :=
  unfold get; cbn [assoc];
  repeat match goal with
         | |- context [String.eqb ?a ?b] =>
             let v := eval vm_compute in (String.eqb a b) in
             change (String.eqb a b) with v
         end;
  cbn [default].

Section Fields.
Context `{DOM} (w : World).






(** *** The default of each field *)





End Fields.




(** ** Failure bodies (C8) *)

Section Failures.
Context `{DOM} (w : World).

Lemma failure_shape_500 what e b : failure_shape b (failure w what e).
Proof.
  destruct (failure_fields w what e) as (Hs & He & Hm).
  unfold failure_shape. rewrite Hs, He, Hm. repeat split; done.
Qed.

Lemma failure_shape_200 b payload : failure_shape b (json 200 payload).
Proof. unfold failure_shape, failed. simpl. intuition discriminate. Qed.

Lemma info_failure_shape req r : info_run w req r -> failure_shape true (response r).
Proof.
  destruct 1; cbn [response];
    [|apply failure_shape_500| |apply failure_shape_200|apply failure_shape_500];
    unfold failure_shape, failed; vm_compute; intuition discriminate.
Qed.

Lemma images_failure_shape req r : images_run w req r -> failure_shape true (response r).
Proof.
  destruct 1; cbn [response];
    [|apply failure_shape_500| | |apply failure_shape_200|apply failure_shape_500];
    unfold failure_shape, failed; vm_compute; intuition discriminate.
Qed.

Lemma prices_failure_shape req r : prices_run w req r -> failure_shape true (response r).
Proof.
  destruct 1; cbn [response];
    [|apply failure_shape_500| |apply failure_shape_200|apply failure_shape_500];
    unfold failure_shape, failed; vm_compute; intuition discriminate.
Qed.

Lemma suggestions_failure_shape req r :
  suggestions_run w req r ->
  failure_shape false (response r) /\ status (response r) <> 400.
Proof.
  destruct 1; cbn [response]; (split; [|simpl; discriminate]);
    [apply failure_shape_500| | |apply failure_shape_200|apply failure_shape_500];
    unfold failure_shape, failed; vm_compute; intuition discriminate.
Qed.

(** *** What the [catch] sends *)

Lemma failure_body what e :
  status (failure w what e) = 500 /\
  get "error" (body (failure w what e)) = VStr what /\
  get "message" (body (failure w what e)) = VStr (err_message e) /\
  get "details" (body (failure w what e))
  = (if development w then VStr (err_stack e) else VUndefined).
Proof. unfold failure. by destruct (development w). Qed.

Lemma elem_of_one {A} (x : A) : x ∈ [x].
Proof. apply list_elem_of_here. Qed.

Lemma info_500 req r :
  info_run w req r -> status (response r) = 500 ->
  exists e,
    thrown w [searchUrl_of (field "destination" req)] e /\
    response r = failure w "Failed to scrape hotel information" e.
Proof.
  destruct 1 as [|e s n c _ Hf| | |e s _ Ht]; cbn [response];
    try (simpl; discriminate); intros _; exists e; (split; [|done]).
  - left. eauto.
  - right. rewrite <- Ht. apply elem_of_one.
Qed.

Lemma images_500 req r :
  images_run w req r -> status (response r) = 500 ->
  exists e,
    thrown w [searchUrl_of (field "destination" req)] e /\
    response r = failure w "Failed to scrape hotel images" e.
Proof.
  destruct 1 as [|e s n c _ Hf| | | |e s _ Ht]; cbn [response];
    try (simpl; discriminate); intros _; exists e; (split; [|done]).
  - left. eauto.
  - right. rewrite <- Ht. apply elem_of_one.
Qed.

Lemma prices_500 req r :
  prices_run w req r -> status (response r) = 500 ->
  exists e,
    thrown w [prices_search req] e /\
    response r = failure w "Failed to fetch hotel prices" e.
Proof.
  destruct 1 as [|e s n c _ Hf| | |e s _ Ht]; cbn [response];
    try (simpl; discriminate); intros _; exists e; (split; [|done]).
  - left. eauto.
  - right. rewrite <- Ht. apply elem_of_one.
Qed.

Lemma suggestions_500 req r :
  suggestions_run w req r -> status (response r) = 500 ->
  exists e,
    thrown w [searchQuery w req; guests_wanted req] e /\
    response r = failure w "Failed to scrape hotel deals" e.
Proof.
  destruct 1 as [e s n c Hf| | | |e s [Ht|Ht]]; cbn [response];
    try (simpl; discriminate); intros _; exists e; (split; [|done]).
  - left. eauto.
  - right. rewrite <- Ht. apply list_elem_of_here.
  - right. rewrite <- Ht. apply list_elem_of_further, list_elem_of_here.
Qed.

Lemma suggestions_404 req r :
  suggestions_run w req r -> status (response r) = 404 ->
  exists text, body (response r) = VObj [("error", VStr text)].
Proof.
  destruct 1; cbn [response]; rewrite ?(proj1 (failure_fields w _ _));
    try (simpl; discriminate); intros _; by eexists.
Qed.

End Failures.

(** C8, as stated, fails: the 400 of hotel-images has an [error] and an
    [example], and no [message]. *)
Lemma missing_destination_has_no_message :
  status (response (hotel_images (quiet blank) no_fields)) = 400 /\
  has_field "error" (body (response (hotel_images (quiet blank) no_fields))) = true /\
  has_field "message" (body (response (hotel_images (quiet blank) no_fields))) = false.
Proof. vm_compute. repeat split; reflexivity. Qed.

(** C8 (amended): every failure response (400, 404 or 500) of every
    endpoint has an [error] field; every 500 has a [message] too, and so has
    every 404 of hotel-info, hotel-images and hotel-prices; a 400 has no
    [message], nor has a 404 of hotel-suggestions, which never answers 400.
    A 500 is the body the [catch] builds from the error that was thrown, by
    an awaited call or by the handler's own conversion of a request field:
    [error] is the fixed text of the handler and [message] the message of
    that error.  The body of a 404 of hotel-suggestions is the one field
    [error].  A 400 carries [example] (hotel-info, hotel-images) or
    [required] (hotel-prices). *)
Theorem failure_bodies `{DOM} (w : World) (req : gmap string value) :
  failure_shape true (response (hotel_info w req)) /\
  failure_shape true (response (hotel_images w req)) /\
  failure_shape true (response (hotel_prices w req)) /\
  failure_shape false (response (hotel_suggestions w req)) /\
  status (response (hotel_suggestions w req)) <> 400 /\
  (forall what e,
     status (failure w what e) = 500 /\
     get "error" (body (failure w what e)) = VStr what /\
     get "message" (body (failure w what e)) = VStr (err_message e) /\
     get "details" (body (failure w what e))
     = (if development w then VStr (err_stack e) else VUndefined)) /\
  (status (response (hotel_info w req)) = 500 ->
   exists e,
     thrown w [searchUrl_of (field "destination" req)] e /\
     response (hotel_info w req) = failure w "Failed to scrape hotel information" e) /\
  (status (response (hotel_images w req)) = 500 ->
   exists e,
     thrown w [searchUrl_of (field "destination" req)] e /\
     response (hotel_images w req) = failure w "Failed to scrape hotel images" e) /\
  (status (response (hotel_prices w req)) = 500 ->
   exists e,
     thrown w [prices_search req] e /\
     response (hotel_prices w req) = failure w "Failed to fetch hotel prices" e) /\
  (status (response (hotel_suggestions w req)) = 500 ->
   exists e,
     thrown w [searchQuery w req; guests_wanted req] e /\
     response (hotel_suggestions w req) = failure w "Failed to scrape hotel deals" e) /\
  (status (response (hotel_suggestions w req)) = 404 ->
   exists text, body (response (hotel_suggestions w req)) = VObj [("error", VStr text)]) /\
  (status (response (hotel_info w req)) = 400 ->
   has_field "example" (body (response (hotel_info w req))) = true) /\
  (status (response (hotel_images w req)) = 400 ->
   has_field "example" (body (response (hotel_images w req))) = true) /\
  (status (response (hotel_prices w req)) = 400 ->
   has_field "required" (body (response (hotel_prices w req))) = true).
Proof.
  split; [|split; [|split; [|split]]].
  - eapply info_failure_shape, hotel_info_cases.
  - eapply images_failure_shape, hotel_images_cases.
  - eapply prices_failure_shape, hotel_prices_cases.
  - eapply suggestions_failure_shape, hotel_suggestions_cases.
  - split; [eapply suggestions_failure_shape, hotel_suggestions_cases|].
    split; [intros what e; apply failure_body|].
    split; [eapply info_500, hotel_info_cases|].
    split; [eapply images_500, hotel_images_cases|].
    split; [eapply prices_500, hotel_prices_cases|].
    split; [eapply suggestions_500, hotel_suggestions_cases|].
    split; [eapply suggestions_404, hotel_suggestions_cases|].
    split; [|split].
    + destruct (hotel_info_cases w req); cbn [response];
        rewrite ?(proj1 (failure_fields w _ _)); simpl; done.
    + destruct (hotel_images_cases w req); cbn [response];
        rewrite ?(proj1 (failure_fields w _ _)); simpl; done.
    + destruct (hotel_prices_cases w req); cbn [response];
        rewrite ?(proj1 (failure_fields w _ _)); simpl; done.
Qed.

(** ** Required fields (C3, C7) *)

Section Required.
Context `{DOM} (w : World).

Lemma hotel_info_rejects req :
  truthy (field "destination" req) = false ->
  hotel_info w req = mkRun missing_destination initial.
Proof. intros Hd. unfold hotel_info. by rewrite Hd. Qed.

Lemma hotel_images_rejects req :
  truthy (field "destination" req) = false ->
  hotel_images w req = mkRun missing_destination initial.
Proof. intros Hd. unfold hotel_images. by rewrite Hd. Qed.

Lemma hotel_prices_rejects req :
  prices_missing req = true ->
  hotel_prices w req = mkRun missing_price_parameters initial.
Proof.
  intros Hd. unfold hotel_prices. cbv zeta. fold (prices_missing req).
  by rewrite Hd.
Qed.

(** A field that is absent from the body is missing. *)
Lemma absent_is_missing k (req : gmap string value) :
  req !! k = None -> truthy (field k req) = false.
Proof. intros Hk. unfold field. by rewrite Hk. Qed.

End Required.

(** C3, as stated, fails: hotel-prices answers a request without its
    fields with 400, an [error] and a [required] object, and no [example]. *)
Lemma missing_price_fields_have_no_example :
  status (response (hotel_prices (quiet blank) no_fields)) = 400 /\
  has_field "required" (body (response (hotel_prices (quiet blank) no_fields))) = true /\
  has_field "example" (body (response (hotel_prices (quiet blank) no_fields))) = false.
Proof. vm_compute. repeat split; reflexivity. Qed.

(** C3 (amended): hotel-info and hotel-images answer a request whose
    [destination] is absent (or falsy) with status 400 and a body with
    [error] and [example]; hotel-prices answers a request with any of its
    four fields absent (or falsy) with status 400 and a body with [error]
    and [required], without [example]; hotel-suggestions checks no field
    and never answers 400. *)
Theorem missing_field_answers `{DOM} (w : World) (req : gmap string value) :
  (truthy (field "destination" req) = false ->
   response (hotel_info w req) = missing_destination /\
   response (hotel_images w req) = missing_destination) /\
  (status missing_destination = 400 /\
   has_field "error" (body missing_destination) = true /\
   has_field "example" (body missing_destination) = true) /\
  (prices_missing req = true ->
   response (hotel_prices w req) = missing_price_parameters) /\
  (status missing_price_parameters = 400 /\
   has_field "error" (body missing_price_parameters) = true /\
   has_field "required" (body missing_price_parameters) = true /\
   has_field "example" (body missing_price_parameters) = false) /\
  (forall k, k ∈ ["hotelName"; "location"; "checkInDate"; "checkOutDate"] ->
             req !! k = None -> prices_missing req = true) /\
  (req !! "destination" = None -> truthy (field "destination" req) = false) /\
  status (response (hotel_suggestions w req)) <> 400.
Proof.
  split; [|split; [|split; [|split; [|split; [|split]]]]].
  - intros Hd. by rewrite hotel_info_rejects, hotel_images_rejects.
  - done.
  - intros Hd. by rewrite hotel_prices_rejects.
  - done.
  - intros k Hk Hreq. unfold prices_missing.
    repeat (apply elem_of_cons in Hk as [->|Hk]);
      [| | | |by apply elem_of_nil in Hk];
      rewrite (absent_is_missing _ _ Hreq); simpl;
      by rewrite ?orb_true_r.
  - apply absent_is_missing.
  - eapply suggestions_failure_shape, hotel_suggestions_cases.
Qed.

(** The empty body: 400 with [example] from hotel-info, hotel-images;
    400 with [required] from hotel-prices. *)
Lemma missing_field_answers_witness :
  (response (hotel_info (quiet blank) no_fields) = missing_destination /\
   response (hotel_images (quiet blank) no_fields) = missing_destination) /\
  response (hotel_prices (quiet blank) no_fields) = missing_price_parameters.
Proof.
  split.
  - apply (proj1 (missing_field_answers (quiet blank) no_fields)). reflexivity.
  - apply (proj1 (proj2 (proj2 (missing_field_answers (quiet blank) no_fields)))).
    reflexivity.
Defined.

(** C7, as stated, fails on hotel-suggestions: with no field at all in the
    body the handler launches a browser, works the page and answers 404. *)
Lemma suggestions_launch_without_fields :
  launched (final (hotel_suggestions (quiet blank) no_fields)) = true /\
  last (log (final (hotel_suggestions (quiet blank) no_fields))) =
    Some (EvCall (Launch Playwright) None) /\
  status (response (hotel_suggestions (quiet blank) no_fields)) = 404.
Proof. vm_compute. repeat split; reflexivity. Qed.

(** C7 (amended): on hotel-info, hotel-images and hotel-prices a request
    with a required field absent (or falsy) is rejected in the initial
    state: nothing was asked of the browser, the log is empty.
    hotel-suggestions checks nothing: whatever the body, the first thing it
    does is to ask for a browser. *)
Theorem rejected_before_browser_work `{DOM} (w : World) (req : gmap string value) :
  (truthy (field "destination" req) = false ->
   final (hotel_info w req) = initial /\ final (hotel_images w req) = initial) /\
  (prices_missing req = true -> final (hotel_prices w req) = initial) /\
  (log initial = [] /\ launched initial = false /\ calls initial = 0%nat) /\
  launch_attempted (final (hotel_suggestions w req)).
Proof.
  split; [|split; [|split]].
  - intros Hd. by rewrite hotel_info_rejects, hotel_images_rejects.
  - intros Hd. by rewrite hotel_prices_rejects.
  - done.
  - by destruct (hotel_suggestions_cases w req).
Qed.

Lemma rejected_before_browser_work_witness :
  (final (hotel_info (quiet blank) no_fields) = initial /\
   final (hotel_images (quiet blank) no_fields) = initial) /\
  final (hotel_prices (quiet blank) no_fields) = initial.
Proof.
  split.
  - apply (proj1 (rejected_before_browser_work (quiet blank) no_fields)). reflexivity.
  - apply (proj1 (proj2 (rejected_before_browser_work (quiet blank) no_fields))).
    reflexivity.
Defined.

(** ** The landmark (C4) *)

Section Landmark.
Context `{DOM} (w : World).





(** *** Where a 404 comes from *)








End Landmark.




(** ** Closing the browser (C1) *)

Section Teardown.
Context `{DOM} (w : World).

(** Every answer other than the 500 of the [catch] is sent with the
    browser closed, if one was launched. *)
Lemma closed_unless_caught req :
  Forall (fun r => status (response r) <> 500 ->
                   launched (final r) = true -> open (final r) = false)
    [hotel_info w req; hotel_images w req; hotel_prices w req;
     hotel_suggestions w req].
Proof.
  repeat constructor.
  - destruct (hotel_info_cases w req)
      as [|e s n c|n m s ? ? ? [? ?]|n m s ? ? ? [? ?]|e s];
      cbn [response final]; rewrite ?(proj1 (failure_fields w _ _)); done.
  - destruct (hotel_images_cases w req)
      as [|e s n c|n m s ? ? ? [? ?]|n m s ? ? ? [? ?]|n m s ? ? ? [? ?]|e s];
      cbn [response final]; rewrite ?(proj1 (failure_fields w _ _)); done.
  - destruct (hotel_prices_cases w req)
      as [|e s n c|m s ? ? [? ?]|m s ? ? [? ?]|e s];
      cbn [response final]; rewrite ?(proj1 (failure_fields w _ _)); done.
  - destruct (hotel_suggestions_cases w req)
      as [e s n c|n e s ? [? ?]|n m s ? ? [? ?]|n m s ? ? [? ?]|e s];
      cbn [response final]; rewrite ?(proj1 (failure_fields w _ _)); done.
Qed.

(** Every 500 of the [catch] that follows a launch is sent with that
    browser still open. *)
Lemma open_when_caught req :
  Forall (fun r => status (response r) = 500 ->
                   launched (final r) = true -> open (final r) = true)
    [hotel_info w req; hotel_images w req; hotel_prices w req;
     hotel_suggestions w req].
Proof.
  repeat constructor.
  - destruct (hotel_info_cases w req) as [|e s n c ? ? Hopen| | |e s];
      cbn [response final]; done.
  - destruct (hotel_images_cases w req) as [|e s n c ? ? Hopen| | | |e s];
      cbn [response final]; done.
  - destruct (hotel_prices_cases w req) as [|e s n c ? ? Hopen| | |e s];
      cbn [response final]; done.
  - destruct (hotel_suggestions_cases w req) as [e s n c ? ? ? Hopen| | | |e s];
      cbn [response final]; done.
Qed.

End Teardown.

(** C1: the claim does not hold of the code.  When [page.goto] rejects in
    hotel-info, or the wait for the guest selector times out in
    hotel-suggestions, the handler's [catch] answers 500 while the browser
    it launched is still open: no path from the [catch] closes it. *)
Theorem catch_leaves_browser_open :
  (status (response (hotel_info (failing (Goto (searchUrl "Hilton New York")) blank) hilton)) = 500 /\
   launched (final (hotel_info (failing (Goto (searchUrl "Hilton New York")) blank) hilton)) = true /\
   open (final (hotel_info (failing (Goto (searchUrl "Hilton New York")) blank) hilton)) = true) /\
  (status (response (hotel_suggestions (failing (WaitForSelector sel_guests (Some 30000)) blank) hilton)) = 500 /\
   launched (final (hotel_suggestions (failing (WaitForSelector sel_guests (Some 30000)) blank) hilton)) = true /\
   open (final (hotel_suggestions (failing (WaitForSelector sel_guests (Some 30000)) blank) hilton)) = true).
Proof. vm_compute. repeat split; reflexivity. Qed.

(** * Further properties *)

(** ** Sessions *)

Lemma live_app added l : Forall page_event added -> live l -> live (added ++ l).
Proof. induction 1; simpl; [done|]. intros Hl. constructor; auto. Qed.

Ltac wp_deep :=
  first
    [ progress unfold click_entity_link, click_prices_tab
    | rewrite validatedImages_spec; apply wp_lift
    | wp_step ];
  cbn beta iota.

(** The log of a state built by steps and pauses, and by blocks whose
    additions are known. *)
Ltac expose_log :=
  repeat (cbn [log step pause final initial];
          try match goal with
              | He : log ?s' = _ |- context [log ?s'] => rewrite He
              end).

Ltac live_solver :=
  repeat first
    [ apply live_launch
    | apply live_page; [ exact I | ]
    | apply live_app; [ assumption | ] ].

Ltac lifecycle_solver :=
  expose_log;
  first
    [ apply lifecycle_idle
    | apply lifecycle_no_browser
    | solve [ apply lifecycle_closed; live_solver ]
    | solve [ apply lifecycle_live; live_solver ] ].

(** A call that is not tolerated cannot have failed. *)
Ltac mismatch Hc :=
  solve [ discriminate Hc
        | injection Hc; intros;
          repeat match goal with
                 | Hs : @eq string _ _ |- _ => vm_compute in Hs; discriminate Hs
                 | Hs : @eq (option Z) _ _ |- _ => discriminate Hs
                 end ].

Ltac intolerable :=
  let Htol := fresh in
  intros Htol; exfalso;
  match goal with
  | Hf : fails _ _ ?c = Some _ |- _ =>
      lazymatch c with
      | Click sel_entity_ch => fail
      | Evaluate ClickEntityLink => fail
      | WaitForNavigation (Some 15000) => fail
      | WaitForSelector sel_prices_tab (Some 5000) => fail
      | _ =>
        let Hc := fresh in
        pose proof (Htol _ _ _ Hf) as Hc;
        unfold prices_tolerated, images_tolerated in Hc;
        destruct_or! Hc; mismatch Hc
      end
  end.


Section Sessions.
Context `{DOM} (w : World).

(** At the end of a run: the URL navigated to, if any, is the one built. *)
Ltac navigated :=
  expose_log; cbn [navigations app];
  first [ intros ? ?%elem_of_nil; done
        | intros ? ->%list_elem_of_singleton; first [ assumption | reflexivity ] ].

(** A text that can be built did not throw. *)
Ltac built :=
  intros _ [? Hbuilt]; exfalso;
  unfold prices_search in Hbuilt;
  repeat match goal with
         | Ht : ?r = Throw _, Hb : context [?r] |- _ => rewrite Ht in Hb
         | Ht : ?r = Ok _, Hb : context [?r] |- _ => rewrite Ht in Hb
         end;
  discriminate.

Lemma hotel_info_session req :
  lifecycle (log (final (hotel_info w req))) /\
  (status (response (hotel_info w req)) = 200 \/
   status (response (hotel_info w req)) = 404 ->
   paused_then_closed (hotel_info w req)) /\
  (forall url, url ∈ navigations (log (final (hotel_info w req))) ->
               searchUrl_of (field "destination" req) = Ok url).
Proof.
  unfold hotel_info. apply handle_wp.
  destruct (truthy (field "destination" req)) eqn:Hd; cbn [negb].
  2: { apply wp_ret. cbn [final response]. split; [apply lifecycle_idle|].
       split; [simpl; intros [|]; discriminate|]. navigated. }
  repeat wp_deep.
  all: cbn [final response]; split; [lifecycle_solver|split]; [|navigated].
  all: try (rewrite (proj1 (failure_fields w _ _)); intros [|]; discriminate).
  all: intros _; eexists; expose_log; reflexivity.
Qed.

Lemma hotel_images_session req :
  lifecycle (log (final (hotel_images w req))) /\
  (status (response (hotel_images w req)) = 200 \/
   status (response (hotel_images w req)) = 404 ->
   paused_then_closed (hotel_images w req)) /\
  (forall url, url ∈ navigations (log (final (hotel_images w req))) ->
               searchUrl_of (field "destination" req) = Ok url) /\
  (only_fails w images_tolerated -> destination_encodes req ->
   status (response (hotel_images w req)) <> 500).
Proof.
  unfold hotel_images. apply handle_wp.
  destruct (truthy (field "destination" req)) eqn:Hd; cbn [negb].
  2: { apply wp_ret. cbn [final response]. split; [apply lifecycle_idle|].
       split; [simpl; intros [|]; discriminate|].
       split; [navigated|]. intros _ _. simpl. discriminate. }
  repeat wp_deep.
  all: cbn [final response]; split; [lifecycle_solver|split; [|split]]; [| navigated |].
  all: try (rewrite (proj1 (failure_fields w _ _)); intros [|]; discriminate).
  all: try (intros _; eexists; expose_log; reflexivity).
  all: first [ solve [intros _ _; simpl; discriminate]
             | solve [unfold destination_encodes; built]
             | intolerable ].
Qed.

Lemma hotel_prices_session req :
  lifecycle (log (final (hotel_prices w req))) /\
  (forall url, url ∈ navigations (log (final (hotel_prices w req))) ->
               prices_search req = Ok url) /\
  (only_fails w prices_tolerated -> prices_search_encodes req ->
   status (response (hotel_prices w req)) <> 500).
Proof.
  unfold hotel_prices. apply handle_wp. cbv zeta. fold (prices_missing req).
  destruct (prices_missing req) eqn:Hd.
  { apply wp_ret. cbn [final response]. split; [apply lifecycle_idle|].
    split; [navigated|]. intros _ _; simpl; discriminate. }
  repeat wp_deep.
  all: cbn [final response]; split; [lifecycle_solver|split].
  all: try (unfold prices_search; simplify_res; navigated).
  all: first [ solve [intros _ _; simpl; discriminate]
             | solve [unfold prices_search_encodes; built]
             | intolerable ].
Qed.

Lemma hotel_images_direct_session req :
  lifecycle (log (final (hotel_images_direct w req))) /\
  (status (response (hotel_images_direct w req)) = 200 \/
   status (response (hotel_images_direct w req)) = 404 ->
   paused_then_closed (hotel_images_direct w req)) /\
  (forall url, url ∈ navigations (log (final (hotel_images_direct w req))) ->
               searchUrl_of (field "destination" req) = Ok url).
Proof.
  unfold hotel_images_direct. apply handle_wp.
  destruct (truthy (field "destination" req)) eqn:Hd; cbn [negb].
  2: { apply wp_ret. cbn [final response]. split; [apply lifecycle_idle|].
       split; [simpl; intros [|]; discriminate|]. navigated. }
  repeat wp_deep.
  all: cbn [final response]; split; [lifecycle_solver|split]; [|navigated].
  all: try (rewrite (proj1 (failure_fields w _ _)); intros [|]; discriminate).
  all: intros _; eexists; expose_log; reflexivity.
Qed.

End Sessions.

(** ** The loops of hotel-suggestions *)

Section Loops.
Context `{DOM} (w : World).

Lemma extends_refl s : extends s s.
Proof. by exists []. Qed.

Lemma extends_trans s1 s2 s3 : extends s1 s2 -> extends s2 s3 -> extends s1 s3.
Proof.
  intros (a1 & E1 & F1) (a2 & E2 & F2). exists (a2 ++ a1). split.
  - by rewrite E2, E1, app_assoc.
  - by apply Forall_app.
Qed.

Lemma extends_step c r s : page_event (EvCall c r) -> extends s (step c r s).
Proof. intros Hp. exists [EvCall c r]. split; [done|]. by constructor. Qed.

Lemma extends_pause ms s : extends s (pause ms s).
Proof. exists [EvSleep ms]. split; [done|]. by constructor. Qed.

Lemma reads_cons i j : reads i (S j) = OptionTextContent i :: reads (S i) j.
Proof. done. Qed.

Lemma orderly_cons i made :
  orderly_from (S i) made -> orderly_from i (OptionTextContent i :: made).
Proof.
  intros [j [-> | ->]]; exists (S j); [by left | right].
  rewrite (reads_cons i (S j)). by rewrite Nat.add_succ_r.
Qed.

Lemma guest_calls_from_S i k count :
  guest_calls_from i (S k) (S count)
  = OptionTextContent i :: guest_calls_from (S i) k count.
Proof.
  unfold guest_calls_from.
  change (Nat.min (S (S k)) (S count)) with (S (Nat.min (S k) count)).
  rewrite reads_cons. change (S k <? S count)%nat with (k <? count)%nat.
  by rewrite Nat.add_succ_r.
Qed.

(** Typing a query: the code points go out in order, each followed by a
    pause; a call that throws stops the loop where it is. *)
Lemma wp_type_query_traced chars (Q : Res unit -> State -> Prop) s :
  (forall r s',
     extends s s' ->
     option_calls (log s') = option_calls (log s) ->
     (exists sent,
        type_calls (log s') = type_calls (log s) ++ sent /\
        sent `prefix_of` chars /\
        (r = Ok tt ->
         sent = chars /\
         typed (log s') = typed (log s) ++ chars /\
         calls s' = (calls s + length chars)%nat)) ->
     Q r s') ->
  wp (type_query w chars) Q s.
Proof.
  revert Q s. induction chars as [|c chars IH]; intros Q s HQ; simpl.
  - apply wp_ret. apply HQ; [apply extends_refl|done|].
    exists []. rewrite !app_nil_r. split; [done|]. split; [done|].
    intros _. split; [done|]. split; [done|]. simpl. lia.
  - wp_step. wp_step.
    + apply HQ; [apply extends_step; exact I|done|].
      exists [c]. split; [done|]. split; [|done].
      apply prefix_cons, prefix_nil.
    + wp_step. wp_step. apply IH.
      intros r s' Hext Ho (sent & Ht & Hp & Hok).
      apply HQ; [|by rewrite Ho|].
      * eapply extends_trans; [|exact Hext].
        eapply extends_trans; [|apply extends_pause]. apply extends_step; exact I.
      * exists (c :: sent). split; [|split].
        -- rewrite Ht. simpl. by rewrite <- app_assoc.
        -- by apply prefix_cons.
        -- intros Hr'. destruct (Hok Hr') as (-> & Hty & Hn).
           split; [done|]. split.
           ++ rewrite Hty. simpl. by rewrite <- app_assoc.
           ++ rewrite Hn. simpl. lia.
Qed.

(** Choosing the guest count: the options are read in order up to the first
    that matches, which is the only one clicked. *)
Lemma wp_select_guests_traced travelers i options
    (Q : Res unit -> State -> Prop) s :
  (forall r s',
     extends s s' ->
     type_calls (log s') = type_calls (log s) ->
     typed (log s') = typed (log s) ->
     (exists made,
        option_calls (log s') = option_calls (log s) ++ made /\
        orderly_from i made /\
        (r = Ok tt ->
         options = [] /\ made = [] \/
         exists wanted,
           template [Hole travelers; Text " guests"] = Ok wanted /\
           made = guest_calls_from i (first_match wanted options)
                    (length options))) ->
     Q r s') ->
  wp (select_guests w travelers i options) Q s.
Proof.
  revert i Q s. induction options as [|o options IH]; intros i Q s HQ;
    cbn [select_guests].
  - apply wp_ret. apply HQ; [apply extends_refl|done|done|].
    exists []. rewrite app_nil_r. split; [done|].
    split; [exists 0%nat; by left|]. intros _. by left.
  - wp_step. wp_step.
    + apply HQ; [apply extends_step; exact I|done|done|].
      exists [OptionTextContent i]. split; [done|].
      split; [exists 1%nat; by left|done].
    + wp_step. wp_step. cbv beta.
      destruct (template [Hole travelers; Text " guests"]) as [wanted|e] eqn:Hw.
      * destruct (includes wanted (textContent o)) eqn:Hm.
        -- wp_step;
             (apply HQ;
              [eapply extends_trans; [|apply extends_step; exact I];
               apply extends_step; exact I|done|done|]);
             (exists [OptionTextContent i; OptionClick i]);
             (split; [cbn [log step option_calls]; by rewrite <- app_assoc|]);
             (split; [exists 0%nat; right; by rewrite Nat.add_0_r|]).
           ++ done.
           ++ intros _. right. exists wanted. split; [done|].
              cbn [first_match]. rewrite Hm. unfold guest_calls_from.
              by rewrite Nat.add_0_r.
        -- apply IH. intros r s' Hext Hc Hty (made & Ho & Hord & Hok).
           apply HQ; [|by rewrite Hc|by rewrite Hty|].
           ++ eapply extends_trans; [|exact Hext]. apply extends_step; exact I.
           ++ exists (OptionTextContent i :: made). split; [|split].
              ** rewrite Ho. cbn [log step option_calls].
                 by rewrite <- app_assoc.
              ** by apply orderly_cons.
              ** intros Hr. right. exists wanted. split; [done|].
                 cbn [first_match length]. rewrite Hm.
                 rewrite guest_calls_from_S. f_equal.
                 destruct (Hok Hr) as [[-> ->]|(wanted' & [= <-] & ->)]; done.
      * apply HQ; [apply extends_step; exact I|done|done|].
        exists [OptionTextContent i]. split; [done|].
        split; [exists 1%nat; by left|done].
Qed.

End Loops.

Section Suggestions.
Context `{DOM} (w : World).

Ltac traces_in H :=
  cbn [type_calls typed option_calls log step pause final initial response
       calls app] in H.

Ltac traces :=
  cbn [type_calls typed option_calls log step pause final initial response
       calls app].

(** A run that ends in the [catch]. *)
Ltac caught :=
  let Hs := fresh in
  intros Hs; exfalso; apply Hs; apply failure_fields.

Lemma hotel_suggestions_session req :
  suggestions_trace w req (hotel_suggestions w req).
Proof.
  unfold hotel_suggestions. apply handle_wp. cbv zeta.
  repeat wp_deep.
  all: unfold suggestions_trace; cbn [final response].
  all: try solve
    [ split; [lifecycle_solver|]; traces;
      split; [exists 0%nat; by left|];
      simplify_res; try destruct (searchQuery w req);
      first [ split; [apply failure_fields|done]
            | split; [apply prefix_nil|caught] ] ].
  apply wp_type_query_traced.
  intros r s1 [added1 [Hlog1 Hpages1]] Ho1 (sent & Ht1 & Hpre & Hok1).
  traces_in Ho1. traces_in Ht1.
  destruct r as [[]|e]; cbn beta iota.
  2: { split; [lifecycle_solver|]. rewrite Ho1, Ht1. simplify_res.
       split; [exists 0%nat; by left|]. split; [done|caught]. }
  destruct (Hok1 eq_refl) as (-> & Hty1 & Hn1). clear Hok1 Hpre.
  traces_in Hty1. traces_in Hn1.
  repeat wp_deep.
  all: unfold suggestions_trace; cbn [final response].
  all: try solve
    [ split; [lifecycle_solver|]; traces; rewrite ?Ho1, ?Ht1; simplify_res;
      split; [exists 0%nat; by left|]; split; [done|caught] ].
  apply wp_select_guests_traced.
  intros r s2 [added2 [Hlog2 Hpages2]] Ht2 Hty2 (made & Ho2 & Hord & Hok2).
  traces_in Ht2. traces_in Hty2. traces_in Ho2.
  rewrite Ht1 in Ht2. rewrite Hty1 in Hty2. rewrite Ho1 in Ho2.
  cbn [app] in Ho2. rewrite <- Ho2 in Hord.
  destruct r as [[]|e]; cbn beta iota.
  2: { unfold suggestions_trace; cbn [final response].
       split; [lifecycle_solver|]. traces. rewrite ?Ht2. simplify_res.
       split; [done|]. split; [done|caught]. }
  specialize (Hok2 eq_refl). rewrite <- Ho2 in Hok2. clear Ho2 made.
  cbn [calls step pause] in Hok2. rewrite Hn1 in Hok2.
  change (S (S (S (S (8 + length (code_points a))))))%nat
    with (12 + length (code_points a))%nat in Hok2.
  repeat wp_deep.
  all: unfold suggestions_trace; cbn [final response].
  all: (split; [lifecycle_solver|]); traces; rewrite ?Ht2, ?Hty2; simplify_res;
       (split; [done|]); (split; [done|]).
  all: try solve [caught].
  all: intros _; split; [done|]; split; [done|]; exact Hok2.
Qed.

End Suggestions.

(** ** The search URL *)

Section SearchUrl.










End SearchUrl.



(** A name with a space, an ampersand and a quote; and the run that
    navigates there. *)
Example searchUrl_example :
  searchUrl "Hilton & Co's" =
  "https://www.google.com/travel/search?q=Hilton%20%26%20Co's" /\
  navigations (log (final (hotel_info (quiet page_with_about_tab)
                             {[ "destination" := VStr "Hilton & Co's" ]})))
  = ["https://www.google.com/travel/search?q=Hilton%20%26%20Co's"].
Proof. split; by vm_compute. Qed.


(** ** Room records *)

Section Rooms.
Context `{DOM}.

(** [find_text] gives the first non-empty text the test accepts, or
    [undefined] when there is none. *)
Lemma find_text_first p spans :
  let texts := map (fun s => trim (textContent s)) spans in
  let accepts t := negb (String.eqb t "") && p t in
  (exists t, find_text p spans = VStr t /\ t <> "" /\ first_such accepts texts t) \/
  (find_text p spans = VUndefined /\ none_such accepts texts).
Proof.
  cbv zeta. unfold find_text.
  destruct (List.find _ _) as [t|] eqn:Hf.
  - left. exists t. split; [done|].
    apply find_first in Hf as (before & after & Hl & Hb & Ht). split.
    + intros ->. done.
    + by exists before, after.
  - right. split; [done|]. apply Forall_forall. intros t Hin.
    apply (find_none _ _ Hf). by apply list_elem_of_In.
Qed.

Lemma js_or_found t d : t <> "" -> js_or (VStr t) d = VStr t.
Proof.
  intros Hne. unfold js_or. simpl.
  destruct (String.eqb_spec t ""); [done|done].
Qed.

End Rooms.

(** X2: what a room of a price listing says about its prices and its link.
    [basePrice] is the first of the trimmed span texts, in document order,
    that is not empty, has a dollar sign and does not have the word taxes,
    or the empty string when no span text is such; [totalPrice] is the
    first that is not empty and has both, or [basePrice] when no span text
    is such; and [url] always starts with [http]: it is the [href]
    attribute of the link when that starts with [http], and otherwise the
    attribute (the empty string when the link has none) appended to
    [https://www.google.com/travel]. *)
Theorem room_price_fields `{DOM} (room : Element) :
  let href := default "" (getAttribute "href" room) in
  (exists basePrice,
     get "basePrice" (room_data room) = VStr basePrice /\
     (first_such base_price_text (span_texts room) basePrice \/
      none_such base_price_text (span_texts room) /\ basePrice = "")) /\
  (exists totalPrice,
     get "totalPrice" (room_data room) = VStr totalPrice /\
     (first_such total_price_text (span_texts room) totalPrice \/
      none_such total_price_text (span_texts room) /\
      get "basePrice" (room_data room) = VStr totalPrice)) /\
  (exists url,
     get "url" (room_data room) = VStr url /\
     startsWith "http" url = true /\
     (startsWith "http" href = true /\ url = href \/
      startsWith "http" href = false /\
      url = "https://www.google.com/travel" +:+ href)).
Proof.
  cbv zeta. unfold room_data, span_texts. cbv zeta. read_field.
  set (spans := querySelectorAll "span" room).
  assert (exists basePrice,
            js_or (find_text (fun t => includes "$" t &&
                                negb (includes "taxes" (toLowerCase t))) spans)
              (VStr "") = VStr basePrice /\
            (first_such base_price_text
               (map (fun s => trim (textContent s)) spans) basePrice \/
             none_such base_price_text
               (map (fun s => trim (textContent s)) spans) /\ basePrice = ""))
    as (basePrice & Hbase & Hfirst).
  { destruct (find_text_first
                (fun t => includes "$" t && negb (includes "taxes" (toLowerCase t)))
                spans) as [(t & -> & Hne & Ht)|[-> Hnone]].
    - exists t. rewrite js_or_found by done. split; [done|by left].
    - exists "". split; [done|by right]. }
  rewrite Hbase. split; [by exists basePrice|]. split.
  - destruct (find_text_first
                (fun t => includes "$" t && includes "taxes" (toLowerCase t))
                spans) as [(t & -> & Hne & Ht)|[-> Hnone]].
    + exists t. rewrite js_or_found by done. split; [done|by left].
    + exists basePrice. split; [done|by right].
  - destruct (startsWith "http" (default "" (getAttribute "href" room))) eqn:Hs.
    + eexists. split; [done|]. split; [done|by left].
    + eexists. split; [done|]. split; [done|by right].
Qed.

(** A room whose spans read a nightly price and a price with taxes, linked
    by a relative address. *)
Example priced_room_fields :
  let room :=
    mkNode "" [("href", "/aclk?sa=l")] "" []
      [("span", [element " Free cancellation " []; element " $120 " [];
                 element "$150 with Taxes and fees" []; element "$99" []])] [] in
  room_data room
  = VObj [("type", VStr "Unknown Room Type"); ("basePrice", VStr "$120");
          ("totalPrice", VStr "$150 with Taxes and fees");
          ("url", VStr "https://www.google.com/travel/aclk?sa=l");
          ("cancellationPolicy", VUndefined); ("features", VUndefined)].
Proof. by vm_compute. Qed.

(** X3: whatever the browser and the pages do, a request drives at most one
    browser session: the launch, when there is one, is the first call; a
    failed launch is followed by nothing; pages are only used between the
    launch and the close; and nothing is called once [browser.close()] has
    been. *)
Theorem one_session_per_request `{DOM} (w : World) (req : gmap string value) :
  Forall (fun r : Run => lifecycle (log (final r)))
    [hotel_info w req; hotel_images w req; hotel_prices w req;
     hotel_suggestions w req; hotel_images_direct w req].
Proof.
  repeat apply Forall_cons_2; [..|apply Forall_nil_2].
  - apply hotel_info_session.
  - apply hotel_images_session.
  - apply hotel_prices_session.
  - apply hotel_suggestions_session.
  - apply hotel_images_direct_session.
Qed.




(** With every click on the entity link failing, the two photos are still
    delivered. *)
Example clumsy_images :
  status (response (hotel_images (clumsy page_with_entity_link) hilton)) = 200 /\
  (exists images,
     get "hotelImages" (body (response (hotel_images (clumsy page_with_entity_link) hilton)))
     = VArr images /\ length images = 2%nat).
Proof. split; [by vm_compute|]. eexists. split; [by vm_compute|done]. Qed.

(** A destination that cannot be encoded is a 500, with no call failing:
    the browser is launched and left open. *)
Example unpaired_surrogate_images :
  let req : gmap string value :=
    {[ "destination" := VStr (bytes [237; 160; 128]%nat) ]} in
  ~ destination_encodes req /\
  response (hotel_images (quiet blank) req)
  = failure (quiet blank) "Failed to scrape hotel images" uri_malformed /\
  open (final (hotel_images (quiet blank) req)) = true.
Proof.
  split; [|split]; [|by vm_compute..].
  intros [url Hurl]. vm_compute in Hurl. discriminate.
Qed.








(** The query of a trip to Rome is typed in full, one character at a
    call. *)
Example rome_typed :
  searchQuery (quiet page_with_guest_menu) rome_for_two
  = Ok "best hotel deals in Rome Invalid Date to Invalid Date" /\
  joined (type_calls (log (final (hotel_suggestions (quiet page_with_guest_menu)
                                    rome_for_two))))
  = "best hotel deals in Rome Invalid Date to Invalid Date" /\
  length (type_calls (log (final (hotel_suggestions (quiet page_with_guest_menu)
                                    rome_for_two)))) = 53%nat.
Proof. by vm_compute. Qed.


(** For two travelers the option [12 guests], which comes before
    [2 guests], holds the text looked for: it is the one clicked. *)
Example twelve_guests_clicked :
  option_calls (log (final (hotel_suggestions (quiet page_with_guest_menu)
                              rome_for_two)))
  = [OptionTextContent 0; OptionTextContent 1; OptionClick 1] /\
  status (response (hotel_suggestions (quiet page_with_guest_menu) rome_for_two))
  = 200.
Proof. by vm_compute. Qed.

(** * The test page *)

Section Page.
Variable stringify : value -> string.

(** X9: the test page sends nothing for an empty input and one request,
    carrying the input as [destination], for any other; and it shows a
    result as text only for an [ok] reply whose body parsed: every other
    outcome (no connection, an unreadable body, an error status) ends in an
    error line after [Loading...]. *)
Theorem page_shows_result_or_error (server : value -> HttpReply) (destination : string) :
  (destination = "" ->
   sent (fetchHotelInfo stringify server destination) = [] /\
   shown (fetchHotelInfo stringify server destination)
   = [ShownHtml (error_span "Please enter a hotel name or location")]) /\
  (destination <> "" ->
   sent (fetchHotelInfo stringify server destination)
   = [VObj [("destination", VStr destination)]] /\
   ((exists data,
       server (VObj [("destination", VStr destination)]) = Reply true (Ok data) /\
       shown (fetchHotelInfo stringify server destination)
       = [ShownText (stringify data); ShownText "Loading..."])
    \/
    ((forall data,
        server (VObj [("destination", VStr destination)]) <> Reply true (Ok data)) /\
     exists message,
       shown (fetchHotelInfo stringify server destination)
       = [ShownHtml (error_span ("Error: " +:+ message)); ShownText "Loading..."]))).
Proof.
  unfold fetchHotelInfo. cbn [truthy]. split.
  - intros ->. done.
  - intros Hne. destruct (String.eqb_spec destination ""); [done|]. cbn [negb sent shown].
    split; [done|].
    destruct (server _) as [e|ok [data|e]].
    + right. split; [done|]. by eexists.
    + destruct ok; cbn [negb].
      * left. by eexists.
      * right. split; [done|]. destruct (read "error" data) as [err|?]; [destruct (to_string _)|];
        by eexists.
    + right. split; [done|]. by eexists.
Qed.

(** X10: the test page against POST /api/hotel-info.  The page never draws
    the 400 of the handler; it shows the body of a 200 as text, and for
    every other answer one of two fixed error lines: neither the input nor
    the message of a caught error reaches the markup of the page. *)
Theorem page_against_hotel_info `{DOM} (w : World) (destination : string) :
  destination <> "" ->
  status (response (hotel_info w (parsed (VObj [("destination", VStr destination)]))))
  <> 400 /\
  (shown (fetchHotelInfo stringify (served w) destination)
   = [ShownText
        (stringify
           (body (response
                    (hotel_info w (parsed (VObj [("destination", VStr destination)]))))));
      ShownText "Loading..."] /\
   status (response (hotel_info w (parsed (VObj [("destination", VStr destination)]))))
   = 200
   \/
   shown (fetchHotelInfo stringify (served w) destination)
   = [ShownHtml (error_span "Error: Could not find hotel information");
      ShownText "Loading..."] /\
   status (response (hotel_info w (parsed (VObj [("destination", VStr destination)]))))
   = 404
   \/
   shown (fetchHotelInfo stringify (served w) destination)
   = [ShownHtml (error_span "Error: Failed to scrape hotel information");
      ShownText "Loading..."] /\
   status (response (hotel_info w (parsed (VObj [("destination", VStr destination)]))))
   = 500).
Proof.
  intros Hne. unfold fetchHotelInfo, served. cbn [truthy].
  destruct (String.eqb_spec destination ""); [done|]. cbn [negb sent shown].
  set (req := parsed _).
  assert (Hd : truthy (field "destination" req) = true).
  { subst req. unfold parsed, field. cbn [reverse rev_append list_to_map foldr].
    rewrite lookup_insert_eq. cbn [default truthy fst snd id].
    by destruct (String.eqb_spec destination ""). }
  destruct (hotel_info_cases w req)
    as [Hf|e s k c _ _ _|k m s _ _ _ _|k m s _ _ _ _|e s _ _ _ _];
    [congruence|..]; cbn [response status body].
  - split; [by rewrite (proj1 (failure_fields w _ _))|]. right; right.
    unfold failure. by destruct (development w).
  - split; [done|]. right; left. done.
  - split; [done|]. left. done.
  - split; [by rewrite (proj1 (failure_fields w _ _))|]. right; right.
    unfold failure. by destruct (development w).
Qed.

End Page.

Lemma page_against_hotel_info_witness :
  "Hilton New York" <> "" /\
  status (response (hotel_info (quiet page_with_about_tab)
                      (parsed (VObj [("destination", VStr "Hilton New York")]))))
  <> 400.
Proof.
  assert (Hne : "Hilton New York" <> "") by discriminate.
  split; [exact Hne|].
  exact (proj1 (page_against_hotel_info (fun _ => "") (quiet page_with_about_tab)
                  "Hilton New York" Hne)).
Defined.


(** * The two editions of hotel-images *)

Section Editions.
Context `{DOM} (w : World) (k : nat).

Lemma skip_later n : (k <= n)%nat -> (if (n <? k)%nat then n else S n) = S n.
Proof. intros Hn. destruct (Nat.ltb_spec n k); [lia|done]. Qed.

Lemma skip_earlier n : (n < k)%nat -> (if (n <? k)%nat then n else S n) = n.
Proof. intros Hn. destruct (Nat.ltb_spec n k); [done|lia]. Qed.

Lemma behind_ret {A} (a : A) : behind k (mret a) (mret a).
Proof. intros s s' Hs Hk. done. Qed.

Lemma behind_bind {A B} (m m' : M A) (f f' : A -> M B) :
  behind k m m' -> (forall a, behind k (f a) (f' a)) -> behind k (m ≫= f) (m' ≫= f').
Proof.
  intros Hm Hf s s' Hs Hk. unfold mbind, M_bind, bind.
  destruct (Hm s s' Hs Hk) as (Hr & Hc & Hk').
  destruct (m s) as [r s1], (m' s') as [r' s1']. simpl in *. subst r'.
  destruct r as [a|e]; [by apply Hf|done].
Qed.

Lemma behind_call c : behind k (call w c) (call (skip w k) c).
Proof.
  intros s s' Hs Hk. unfold call. cbn [skip fails fst snd step calls].
  rewrite skip_later, Hs by done. repeat split; first [done | lia].
Qed.

Lemma behind_sleep ms : behind k (sleep ms) (sleep ms).
Proof. intros s s' Hs Hk. done. Qed.

Lemma behind_lift {A} (r : Res A) : behind k (lift r) (lift r).
Proof. intros s s' Hs Hk. done. Qed.

Lemma behind_snapshot : behind k (snapshot w) (snapshot (skip w k)).
Proof.
  intros s s' Hs Hk. unfold snapshot. cbn [skip document fst snd].
  by rewrite skip_later, Hs by done.
Qed.

Lemma behind_evaluate {A} f (script : Element -> A) :
  behind k (evaluate w f script) (evaluate (skip w k) f script).
Proof.
  unfold evaluate. apply behind_bind; [apply behind_snapshot|]. intros d.
  apply behind_bind; [apply behind_call|]. intros _. apply behind_ret.
Qed.

Lemma behind_waitForSelector sel timeout :
  behind k (waitForSelector w sel timeout) (waitForSelector (skip w k) sel timeout).
Proof.
  unfold waitForSelector. apply behind_bind; [apply behind_snapshot|]. intros d.
  apply behind_bind; [apply behind_call|]. intros _. apply behind_ret.
Qed.

(** Before the [k]-th call the two worlds agree. *)
Lemma same_call {A} c (m m' : M A) s :
  (calls s < k)%nat ->
  (forall s1, calls s1 = S (calls s) -> (m s1).1 = (m' s1).1) ->
  ((call w c;; m) s).1 = ((call (skip w k) c;; m') s).1.
Proof.
  intros Hs Hm. unfold mbind, M_bind, bind, call. cbn [skip fails].
  rewrite skip_earlier by done.
  destruct (fails w (calls s) c); cbn [outcome]; [done|]. by apply Hm.
Qed.

(** A text built from the request is the same in both worlds. *)
Lemma same_lift {A B} (r : Res A) (f f' : A -> M B) s :
  (forall a, (f a s).1 = (f' a s).1) ->
  ((lift r ≫= f) s).1 = ((lift r ≫= f') s).1.
Proof.
  intros Hf. unfold mbind, M_bind, bind, lift. destruct r; [apply Hf|done].
Qed.

Lemma evaluate_run {A B} f (script : Element -> A) (rest : A -> M B) s :
  fails w (calls s) (Evaluate f) = None ->
  (evaluate w f script ≫= rest) s
  = rest (script (document w (calls s))) (step (Evaluate f) None s).
Proof.
  intros Hf. unfold evaluate, snapshot, call, mbind, M_bind, bind, mret, M_ret, ret.
  by rewrite Hf.
Qed.

Lemma ret_run {A B} (a : A) (rest : A -> M B) s : (mret a ≫= rest) s = rest a s.
Proof. reflexivity. Qed.

End Editions.

Ltac behind_step :=
  first [ apply behind_ret | apply behind_call | apply behind_sleep
        | apply behind_lift | apply behind_evaluate | apply behind_waitForSelector
        | apply behind_bind; [|intros ?]
        | match goal with
          | |- behind _ (if ?b then _ else _) _ => destruct b
          end ].

(** X11: the earlier edition of hotel-images (the server kept beside the
    test page) is the current one without the step on the entity link: on
    a search page without such a link the current handler answers what the
    earlier one answers in the world where that one check is not made. *)
Theorem entity_step_only_difference `{DOM} (w : World) (req : gmap string value) :
  fails w 4 (Evaluate CheckEntityLink) = None ->
  querySelector sel_entity_ch (document w 4) = None ->
  response (hotel_images w req) = response (hotel_images_direct (skip w 4) req).
Proof.
  intros Hf Hq.
  assert (Hrun : forall m m' : M Response,
            (m initial).1 = (m' initial).1 ->
            response (handle w "Failed to scrape hotel images" m)
            = response (handle (skip w 4) "Failed to scrape hotel images" m')).
  { intros m m' Hm. unfold handle.
    destruct (m initial) as [r s], (m' initial) as [r' s']. simpl in Hm. subst r'.
    by destruct r. }
  apply Hrun. cbv zeta. destruct (truthy (field "destination" req)); cbn [negb]; [|done].
  apply same_call; [simpl; lia|]. intros s1 H1.
  apply same_call; [simpl in *; lia|]. intros s2 H2.
  apply same_call; [simpl in *; lia|]. intros s3 H3.
  apply same_lift. intros url.
  apply same_call; [simpl in *; lia|]. intros s4 H4.
  assert (Hc : calls s4 = 4%nat) by (simpl in *; lia). clear - Hf Hq Hc.
  rewrite evaluate_run by (by rewrite Hc).
  rewrite Hc, Hq, bool_decide_eq_false_2 by (by intros [? ?]).
  rewrite ret_run.
  match goal with
  | |- fst (?m ?s) = fst (?m' ?s') => assert (Hb : behind 4 m m')
  end.
  { repeat behind_step. }
  apply Hb; simpl; lia.
Qed.

Lemma entity_step_only_difference_witness :
  response (hotel_images (quiet page_with_photos) hilton)
  = response (hotel_images_direct (skip (quiet page_with_photos) 4) hilton).
Proof. apply entity_step_only_difference; reflexivity. Defined.


(** * More on what the scripts extract *)

Section Cards.
Context `{DOM}.

Lemma strip_parens_chars s :
  chars (strip_parens s)
  = List.filter (fun c => negb (Ascii.eqb c "(" || Ascii.eqb c ")")) (chars s).
Proof.
  induction s as [|c s IH]; [done|]. cbn [strip_parens chars List.filter].
  destruct (Ascii.eqb c "(" || Ascii.eqb c ")")%bool; cbn [negb chars]; by rewrite IH.
Qed.

End Cards.

(** X12: the [reviews] of a suggested hotel is always a string, and it is
    the text of the review count with every parenthesis removed and
    nothing else changed (the empty string when the card shows none). *)
Theorem reviews_without_parentheses `{DOM} (element : Element) :
  exists reviews,
    get "reviews" (hotel_data element) = VStr reviews /\
    ~ In "("%char (chars reviews) /\ ~ In ")"%char (chars reviews) /\
    chars reviews
    = List.filter (fun c => negb (Ascii.eqb c "(" || Ascii.eqb c ")"))
        (chars (default "" (textContent <$> querySelector ".jdzyld" element))).
Proof.
  assert (Hno : forall s, ~ In "("%char (chars (strip_parens s)) /\
                          ~ In ")"%char (chars (strip_parens s))).
  { intros s. rewrite strip_parens_chars. split.
    all: intros [_ Hc]%filter_In; by vm_compute in Hc. }
  unfold hotel_data. cbv zeta. unfold get. cbn [assoc].
  repeat match goal with
         | |- context [String.eqb ?a ?b] =>
             let v := eval vm_compute in (String.eqb a b) in
             change (String.eqb a b) with v
         end.
  cbn [default]. destruct (querySelector ".jdzyld" element) as [el|]; cbn [fmap option_fmap option_map default].
  - exists (strip_parens (textContent el)). split; [|split; [apply Hno|split; [apply Hno|apply strip_parens_chars]]].
    unfold js_or. cbn [truthy].
    by destruct (String.eqb_spec (strip_parens (textContent el)) "") as [->|].
  - exists "". split; [done|]. split; [by intros []|]. split; [by intros []|done].
Qed.

(** X13: hotel-prices asks for the two dates and then never looks at them:
    requests that name the same hotel and location, and give some check-in
    and some check-out date, are answered alike, whatever the dates. *)
Theorem prices_ignore_dates `{DOM} (w : World) (body body' : gmap string value) :
  field "hotelName" body = field "hotelName" body' ->
  field "location" body = field "location" body' ->
  truthy (field "checkInDate" body) = truthy (field "checkInDate" body') ->
  truthy (field "checkOutDate" body) = truthy (field "checkOutDate" body') ->
  hotel_prices w body = hotel_prices w body'.
Proof.
  intros Hn Hl Hi Ho. unfold hotel_prices. cbv zeta. by rewrite Hn, Hl, Hi, Ho.
Qed.

Lemma prices_ignore_dates_witness :
  hotel_prices (quiet page_with_bare_room) price_request
  = hotel_prices (quiet page_with_bare_room)
      (<["checkInDate" := VStr "1999-12-31"]>
         (<["checkOutDate" := VStr "not a date"]> price_request)).
Proof. apply prices_ignore_dates; reflexivity. Defined.


(** * What a caller can rely on *)

(** X14: the statuses a caller can meet: 200, 400, 404 and 500 from
    hotel-info, hotel-images and hotel-prices; 200, 404 and 500 from
    hotel-suggestions, which never answers 400. *)
Theorem statuses_answered `{DOM} (w : World) (req : gmap string value) :
  status (response (hotel_info w req)) ∈ [200; 400; 404; 500] /\
  status (response (hotel_images w req)) ∈ [200; 400; 404; 500] /\
  status (response (hotel_prices w req)) ∈ [200; 400; 404; 500] /\
  status (response (hotel_suggestions w req)) ∈ [200; 404; 500].
Proof.
  split; [|split; [|split]].
  - destruct (hotel_info_cases w req); cbn [response];
      rewrite ?(proj1 (failure_fields w _ _)); cbn [status json];
      rewrite !elem_of_cons; auto 6.
  - destruct (hotel_images_cases w req); cbn [response];
      rewrite ?(proj1 (failure_fields w _ _)); cbn [status json];
      rewrite !elem_of_cons; auto 6.
  - destruct (hotel_prices_cases w req); cbn [response];
      rewrite ?(proj1 (failure_fields w _ _)); cbn [status json];
      rewrite !elem_of_cons; auto 6.
  - destruct (hotel_suggestions_cases w req); cbn [response];
      rewrite ?(proj1 (failure_fields w _ _)); cbn [status json];
      rewrite !elem_of_cons; auto 6.
Qed.

(** X15: a 200 always has something to show: [hotelInfo] is an object,
    [hotelImages] holds from one to ten images, [hotelSuggestions] from one
    to ten hotels. *)
Theorem success_never_empty `{DOM} (w : World) (req : gmap string value) :
  (status (response (hotel_info w req)) = 200 ->
   exists fields, get "hotelInfo" (body (response (hotel_info w req))) = VObj fields) /\
  (status (response (hotel_images w req)) = 200 ->
   (1 <= length (items (get "hotelImages" (body (response (hotel_images w req))))) <= 10)%nat) /\
  (status (response (hotel_suggestions w req)) = 200 ->
   (1 <= length (items (get "hotelSuggestions" (body (response (hotel_suggestions w req)))))
    <= 10)%nat).
Proof.
  split; [|split].
  - intros H200.
    destruct (info_200 w req _ (hotel_info_cases w req) H200) as (n & m & _ & Ht & ->).
    assert (exists l, extract_hotel_info (document w m) = VObj l) as [l ->].
    { unfold extract_hotel_info in *.
      destruct (querySelector sel_about_section (document w m)); [|done].
      cbv zeta. by eexists. }
    simpl. by eexists.
  - intros H200.
    destruct (images_200 w req _ (hotel_images_cases w req) H200) as (n & m & _ & Hne & Hr).
    rewrite Hr, array_payload. cbn [items]. rewrite length_map. split.
    + destruct ((accepted w (extract_images (document w m))).*2); [done|simpl; lia].
    + rewrite length_fmap. unfold accepted.
      etrans; [apply filter_length_le|].
      rewrite length_imap. apply extract_images_length.
  - intros H200.
    destruct (suggestions_200 w req _ (hotel_suggestions_cases w req) H200)
      as (n & m & _ & Hne & Hr).
    rewrite Hr, array_payload. cbn [items]. rewrite length_map. split.
    + destruct (extract_suggestions (document w m)); [done|simpl; lia].
    + apply extract_suggestions_length.
Qed.


